(** * bpython.curtsiesfrontend.coderunner: a shallow embedding

    The module runs interpreter code in a greenlet (the worker) that can hand
    control back to the main greenlet (the driver) to ask for a screen refresh
    or for input.  The embedding keeps the shape of the Python source:

    - Python values that cross the greenlet boundary are [pyval];
    - code that runs inside the code greenlet is a [code] tree: it returns,
      raises, or switches to the main greenlet and waits for the value of the
      next [switch];
    - the methods of [CodeRunner] that the driver calls are state transformers
      over the runner's fields and the process-wide SIGINT slot, with Python
      exceptions as an explicit [Raises] outcome. *)

From Stdlib Require Import String List Bool ZArith Lia.
Import ListNotations.
Open Scope string_scope.
Open Scope list_scope.

(** ** Python values and exceptions *)

(** The values handed over a [switch]: what the driver passes to
    [run_code(for_code)] and what the greenlet sends back.  [VSigintHappened]
    is the class object [SigintHappened], which the module compares with
    [is]; [VTuple0] is the empty tuple a bare [switch()] delivers. *)
Inductive pyval : Type :=
| VNone
| VBool (b : bool)
| VInt (z : Z)
| VStr (s : string)
| VTuple0
| VSigintHappened.

(** Python truth value of a [pyval]. *)
Definition truthy (v : pyval) : bool :=
  match v with
  | VNone => false
  | VBool b => b
  | VInt z => negb (Z.eqb z 0)
  | VStr s => negb (String.eqb s "")
  | VTuple0 => false
  | VSigintHappened => true
  end.

(** [value is SigintHappened]. *)
Definition is_SigintHappened (v : pyval) : bool :=
  match v with
  | VSigintHappened => true
  | _ => false
  end.

(** [request == s] for a string literal [s]. *)
Definition eq_str (request : pyval) (s : string) : bool :=
  match request with
  | VStr t => String.eqb t s
  | _ => false
  end.

(** [request in [s1, s2, ...]] for a list of string literals. *)
Definition in_strs (request : pyval) (l : list string) : bool :=
  existsb (eq_str request) l.

(** The exceptions the module raises or lets through.
    [SystemExitFromCodeThread] is declared as a subclass of [SystemExit]. *)
Inductive exn : Type :=
| KeyboardInterrupt
| SystemExit
| SystemExitFromCodeThread
| AssertionError
| AttributeError
| TypeError
| ValueError (request : pyval)
| OtherException (name : string).

(** [isinstance(e, SystemExit)]: what [except SystemExit] catches. *)
Definition is_SystemExit (e : exn) : bool :=
  match e with
  | SystemExit | SystemExitFromCodeThread => true
  | _ => false
  end.

(** The result of a Python call: a value or a raised exception. *)
Inductive outcome (A : Type) : Type :=
| Returns (a : A)
| Raises (e : exn).
Arguments Returns {A} a.
Arguments Raises {A} e.

(** ** Code running inside the code greenlet *)

(** A computation in the code greenlet.
    - [SwitchMain v k]: [self.main_greenlet.switch(v)]; the greenlet is
      suspended until the driver switches back with a value [x], and then
      goes on as [k x].
    - [CallOut f d k]: a call [f(d)] of a callable of the host program (the
      sink of [FakeOutput]); [k] receives what the call returned or raised.
    - [Sigint k]: SIGINT is delivered at this point of the greenlet's
      execution; the installed handler runs in the greenlet and [k] receives
      its outcome. *)
Inductive code (A : Type) : Type :=
| Ret (a : A)
| Raise (e : exn)
| SwitchMain (v : pyval) (k : pyval -> code A)
| CallOut (f : pyval -> outcome pyval) (d : pyval) (k : outcome pyval -> code A)
| Sigint (k : outcome unit -> code A).
Arguments Ret {A} a.
Arguments Raise {A} e.
Arguments SwitchMain {A} v k.
Arguments CallOut {A} f d k.
Arguments Sigint {A} k.

(** [try: x = body / except <h>: ... / (then) orelse x]: the handler [h]
    gives the code of the matching [except] clause, or [None] when no clause
    matches and the exception goes on. *)
Fixpoint try_except {A B : Type} (body : code A)
    (h : exn -> option (code B)) (orelse : A -> code B) : code B :=
  match body with
  | Ret a => orelse a
  | Raise e => match h e with
               | Some c => c
               | None => Raise e
               end
  | SwitchMain v k => SwitchMain v (fun x => try_except (k x) h orelse)
  | CallOut f d k => CallOut f d (fun r => try_except (k r) h orelse)
  | Sigint k => Sigint (fun r => try_except (k r) h orelse)
  end.

(** Sequencing: [x = c; k x], exceptions of [c] going through. *)
Definition bind {A B : Type} (c : code A) (k : A -> code B) : code B :=
  try_except c (fun _ => None) k.

(** The outcome of a call, taken up again as code. *)
Definition of_outcome {A : Type} (r : outcome A) : code A :=
  match r with
  | Returns a => Ret a
  | Raises e => Raise e
  end.

(** A plain call [f(d)] in the code greenlet. *)
Definition call (f : pyval -> outcome pyval) (d : pyval) : code pyval :=
  CallOut f d of_outcome.

(** What the greenlet receives while it runs: the value of a [switch] from
    the driver, or the outcome of the SIGINT handler. *)
Inductive response : Type :=
| Resumed (x : pyval)
| Handled (r : outcome unit).

(** Runs the calls of host callables that stand at the head of [c]. *)
Fixpoint calls {A : Type} (c : code A) : code A :=
  match c with
  | CallOut f d k => calls (k (f d))
  | _ => c
  end.

(** [feed c rs]: the code that is left of [c] once it has gone through the
    responses [rs] (calls of host callables are run on the way).  A response
    of the wrong kind, or one that comes after the end, leaves the code
    where it is. *)
Fixpoint feed {A : Type} (c : code A) (rs : list response) {struct rs}
    : code A :=
  match rs with
  | [] => calls c
  | r :: rs' =>
      match calls c, r with
      | SwitchMain _ k, Resumed x => feed (k x) rs'
      | Sigint k, Handled o => feed (k o) rs'
      | c', _ => c'
      end
  end.

(** ** Greenlets, the SIGINT slot and the runner's fields *)

(** A greenlet object: created with its [run] function, then suspended at a
    [switch] with the rest of its code, then dead. *)
Inductive gstate : Type :=
| GNew (run : code pyval)
| GSuspended (k : pyval -> code pyval)
| GDead.

Record greenlet : Type := mk_greenlet {
  gid : nat;                    (* identity of the object, for [is] *)
  gstate_of : gstate
}.

(** [bool(g)]: a greenlet is true while it is active, that is started and
    not dead. *)
Definition greenlet_active (g : greenlet) : bool :=
  match gstate_of g with
  | GSuspended _ => true
  | GNew _ | GDead => false
  end.

(** [greenlet.getcurrent()]. *)
Inductive gref : Type :=
| GMain
| GCode (id : nat).

(** What the SIGINT slot of the process can hold: Python's default handler,
    a handler of the host program, or the bound method
    [self.sigint_handler] of the runner. *)
Inductive handler : Type :=
| DefaultIntHandler
| HostHandler (n : nat)
| RunnerHandler.

(** What the host program can observe of a run. *)
Inductive event : Type :=
| RefreshRequest                (* one call of [self.stuff_a_refresh_request] *)
| Called (d : pyval)            (* one call of a host callable on [d] *)
| HostHandled (n : nat).        (* one run of the host's SIGINT handler [n] *)

(** The fields of a [CodeRunner].  [main_greenlet] is the driver, and
    [stuff_a_refresh_request] is a callable of the host program whose calls
    go to the trace. *)
Record CodeRunner : Type := mk_CodeRunner {
  interp : option string -> code pyval;     (* self.interp.runsource *)
  source : option string;
  code_greenlet : option greenlet;
  code_is_waiting : bool;
  sigint_happened : bool;
  orig_sigint_handler : option handler
}.

(** The process around the runner. *)
Record Process : Type := mk_Process {
  sigint_slot : handler;                    (* signal.getsignal(signal.SIGINT) *)
  current : gref;                           (* greenlet.getcurrent() *)
  next_gid : nat;
  trace : list event
}.

Record State : Type := mk_State {
  self : CodeRunner;
  proc : Process
}.

Definition set_source (v : option string) (r : CodeRunner) : CodeRunner :=
  mk_CodeRunner (interp r) v (code_greenlet r) (code_is_waiting r)
    (sigint_happened r) (orig_sigint_handler r).
Definition set_code_greenlet (v : option greenlet) (r : CodeRunner)
    : CodeRunner :=
  mk_CodeRunner (interp r) (source r) v (code_is_waiting r)
    (sigint_happened r) (orig_sigint_handler r).
Definition set_code_is_waiting (v : bool) (r : CodeRunner)
    : CodeRunner :=
  mk_CodeRunner (interp r) (source r) (code_greenlet r) v
    (sigint_happened r) (orig_sigint_handler r).
Definition set_sigint_happened (v : bool) (r : CodeRunner)
    : CodeRunner :=
  mk_CodeRunner (interp r) (source r) (code_greenlet r) (code_is_waiting r)
    v (orig_sigint_handler r).
Definition set_orig_sigint_handler (v : option handler) (r : CodeRunner)
    : CodeRunner :=
  mk_CodeRunner (interp r) (source r) (code_greenlet r) (code_is_waiting r)
    (sigint_happened r) v.

Definition set_sigint_slot (v : handler) (p : Process) : Process :=
  mk_Process v (current p) (next_gid p) (trace p).
Definition set_current (v : gref) (p : Process) : Process :=
  mk_Process (sigint_slot p) v (next_gid p) (trace p).
Definition set_next_gid (v : nat) (p : Process) : Process :=
  mk_Process (sigint_slot p) (current p) v (trace p).
Definition log (e : event) (p : Process) : Process :=
  mk_Process (sigint_slot p) (current p) (next_gid p) (trace p ++ [e]).

(** ** Driver-side methods: state and exceptions *)

(** A method call: from a state to an outcome and the state it leaves. *)
Definition M (A : Type) : Type := State -> outcome A * State.

Definition ret {A : Type} (a : A) : M A := fun st => (Returns a, st).
Definition raise {A : Type} (e : exn) : M A := fun st => (Raises e, st).
Definition mbind {A B : Type} (m : M A) (f : A -> M B) : M B :=
  fun st => match m st with
            | (Returns a, st') => f a st'
            | (Raises e, st') => (Raises e, st')
            end.
Definition get_self : M CodeRunner := fun st => (Returns (self st), st).
Definition upd_self (f : CodeRunner -> CodeRunner) : M unit :=
  fun st => (Returns tt, mk_State (f (self st)) (proc st)).
Definition get_proc : M Process := fun st => (Returns (proc st), st).
Definition upd_proc (f : Process -> Process) : M unit :=
  fun st => (Returns tt, mk_State (self st) (f (proc st))).
Definition assert_ (b : bool) : M unit :=
  if b then ret tt else raise AssertionError.

Declare Scope py_scope.
Delimit Scope py_scope with py.
Notation "x <- m ;; k" := (mbind m (fun x => k))
  (at level 61, m at next level, right associativity) : py_scope.
Notation "m ;; k" := (mbind m (fun _ => k))
  (at level 61, right associativity) : py_scope.
Open Scope py_scope.

(** [signal.getsignal(signal.SIGINT)]. *)
Definition signal_getsignal : M handler :=
  p <- get_proc ;; ret (sigint_slot p).

(** [signal.signal(signal.SIGINT, h)]; [None] is not a handler. *)
Definition signal_signal (h : option handler) : M unit :=
  match h with
  | Some h' => upd_proc (set_sigint_slot h')
  | None => raise TypeError
  end.

(** [greenlet.greenlet(run)]: a new greenlet object. *)
Definition greenlet_greenlet (run : code pyval) : M greenlet :=
  p <- get_proc ;;
  upd_proc (set_next_gid (S (next_gid p))) ;;
  ret (mk_greenlet (next_gid p) (GNew run)).

(** ** The signal handler *)

(** [greenlet.getcurrent() is g], for [g] the content of
    [self.code_greenlet] ([None] is no greenlet). *)
Definition current_is (c : gref) (g : option greenlet) : bool :=
  match c, g with
  | GCode i, Some g' => Nat.eqb i (gid g')
  | _, _ => false
  end.

(** [CodeRunner.sigint_handler]. *)
Definition sigint_handler : M unit :=
  me <- get_self ;;
  p <- get_proc ;;
  if current_is (current p) (code_greenlet me) then
    raise KeyboardInterrupt
  else
    upd_self (set_sigint_happened true).

(** SIGINT reaches the process: the handler in the slot runs in the current
    greenlet.  Python's default handler raises [KeyboardInterrupt]; a handler
    of the host is only recorded. *)
Definition deliver_sigint : M unit :=
  p <- get_proc ;;
  match sigint_slot p with
  | RunnerHandler => sigint_handler
  | DefaultIntHandler => raise KeyboardInterrupt
  | HostHandler n => upd_proc (log (HostHandled n))
  end.

(** ** Switching into the code greenlet *)

(** How control comes back to the driver from the code greenlet. *)
Inductive switched : Type :=
| Yielded (v : pyval) (k : pyval -> code pyval)   (* main_greenlet.switch(v) *)
| Finished (v : pyval)                            (* run returned v *)
| Propagated (e : exn).                           (* run raised e *)

(** Runs the code greenlet until it gives control back. *)
Fixpoint run_worker (c : code pyval) (st : State) : switched * State :=
  match c with
  | Ret v => (Finished v, st)
  | Raise e => (Propagated e, st)
  | SwitchMain v k => (Yielded v k, st)
  | CallOut f d k =>
      run_worker (k (f d)) (mk_State (self st) (log (Called d) (proc st)))
  | Sigint k =>
      let (r, st') := deliver_sigint st in run_worker (k r) st'
  end.

(** Control is back in the main greenlet; the greenlet object is left in
    state [gs]. *)
Definition back_in_main (g : greenlet) (gs : gstate) (st : State) : State :=
  mk_State (set_code_greenlet (Some (mk_greenlet (gid g) gs)) (self st))
           (set_current GMain (proc st)).

(** [self.code_greenlet.switch] with the argument [arg], called from the
    main greenlet.  A new greenlet starts its [run]; a suspended one gets
    the argument as the value of its own [switch] (the empty tuple when
    there is none); a dead one hands the argument straight back. *)
Definition greenlet_switch (arg : option pyval) : M pyval :=
  fun st =>
    match code_greenlet (self st) with
    | None => (Raises AttributeError, st)
    | Some g =>
        let x := match arg with Some v => v | None => VTuple0 end in
        let c := match gstate_of g with
                 | GNew run => run
                 | GSuspended k => k x
                 | GDead => Ret x
                 end in
        let st1 := mk_State (self st) (set_current (GCode (gid g)) (proc st)) in
        match run_worker c st1 with
        | (Yielded v k, st2) => (Returns v, back_in_main g (GSuspended k) st2)
        | (Finished v, st2) => (Returns v, back_in_main g GDead st2)
        | (Propagated e, st2) => (Raises e, back_in_main g GDead st2)
        end
    end.

(** ** CodeRunner *)

(** [CodeRunner.__init__]. *)
Definition __init__ (interp : option string -> code pyval) : CodeRunner :=
  mk_CodeRunner interp None None false false None.

(** The value of the property [CodeRunner.running]: [self.source] when that
    is false, else [self.code_greenlet]. *)
Inductive running_value : Type :=
| RunSource (s : option string)
| RunGreenlet (g : option greenlet).

(** Truth value of a source: [None] and the empty string are false. *)
Definition source_truthy (s : option string) : bool :=
  match s with
  | None => false
  | Some t => negb (String.eqb t "")
  end.

(** [CodeRunner.running]: [self.source and self.code_greenlet]. *)
Definition running (me : CodeRunner) : running_value :=
  if source_truthy (source me) then RunGreenlet (code_greenlet me)
  else RunSource (source me).

(** [bool(self.running)]. *)
Definition running_truthy (me : CodeRunner) : bool :=
  match running me with
  | RunSource s => source_truthy s
  | RunGreenlet None => false
  | RunGreenlet (Some g) => greenlet_active g
  end.

Definition is_None {A : Type} (o : option A) : bool :=
  match o with
  | None => true
  | Some _ => false
  end.

(** [CodeRunner.load_code]. *)
Definition load_code (src : string) : M unit :=
  me <- get_self ;;
  assert_ (is_None (source me)) ;;
  upd_self (set_source (Some src)) ;;
  upd_self (set_code_greenlet None).

(** [CodeRunner._unload_code]. *)
Definition _unload_code : M unit :=
  upd_self (set_source None) ;;
  upd_self (set_code_greenlet None) ;;
  upd_self (set_code_is_waiting false).

(** [CodeRunner._blocking_run_code], the [run] of the code greenlet. *)
Definition _blocking_run_code (me : CodeRunner) : code pyval :=
  try_except (interp me (source me))
    (fun e => if is_SystemExit e then Some (Ret (VStr "SystemExit")) else None)
    (fun unfinished =>
       Ret (if truthy unfinished then VStr "unfinished" else VStr "done")).

(** One call of [self.stuff_a_refresh_request]. *)
Definition stuff_a_refresh_request : M unit :=
  upd_proc (log RefreshRequest).

(** [CodeRunner.run_code], first half: the [if]/[else] that switches into
    the code greenlet and gets [request] back. *)
Definition run_code_switch (for_code : pyval) : M pyval :=
  me <- get_self ;;
  match code_greenlet me with
  | None =>
      assert_ (negb (is_None (source me))) ;;
      g <- greenlet_greenlet (_blocking_run_code me) ;;
      upd_self (set_code_greenlet (Some g)) ;;
      h <- signal_getsignal ;;
      upd_self (set_orig_sigint_handler (Some h)) ;;
      signal_signal (Some RunnerHandler) ;;
      greenlet_switch None
  | Some _ =>
      assert_ (code_is_waiting me) ;;
      upd_self (set_code_is_waiting false) ;;
      signal_signal (Some RunnerHandler) ;;
      if sigint_happened me then
        upd_self (set_sigint_happened false) ;;
        greenlet_switch (Some VSigintHappened)
      else
        greenlet_switch (Some for_code)
  end.

(** [CodeRunner.run_code], second half: the [if]/[elif] chain on
    [request]. *)
Definition run_code_request (request : pyval) : M pyval :=
  if in_strs request ["wait"; "refresh"] then
    upd_self (set_code_is_waiting true) ;;
    (if eq_str request "refresh" then stuff_a_refresh_request else ret tt) ;;
    ret (VBool false)
  else if in_strs request ["done"; "unfinished"] then
    _unload_code ;;
    me <- get_self ;;
    signal_signal (orig_sigint_handler me) ;;
    upd_self (set_orig_sigint_handler None) ;;
    ret request
  else if in_strs request ["SystemExit"] then
    _unload_code ;;
    raise SystemExitFromCodeThread
  else
    raise (ValueError request).

(** [CodeRunner.run_code]. *)
Definition run_code (for_code : pyval) : M pyval :=
  request <- run_code_switch for_code ;;
  run_code_request request.

(** The value a suspension gives back to the code once the driver has
    switched in again. *)
Definition resumed (value : pyval) : code pyval :=
  if is_SigintHappened value then Raise KeyboardInterrupt else Ret value.

(** [CodeRunner.wait_and_get_value]. *)
Definition wait_and_get_value : code pyval :=
  SwitchMain (VStr "wait") resumed.

(** [CodeRunner.refresh_and_get_value]. *)
Definition refresh_and_get_value : code pyval :=
  SwitchMain (VStr "refresh") resumed.

(** ** FakeOutput *)

Record FakeOutput : Type := mk_FakeOutput {
  on_write : pyval -> outcome pyval
}.

(** [FakeOutput.write]. *)
Definition write (fo : FakeOutput) (data : pyval) : code pyval :=
  bind (call (on_write fo) data) (fun _ => refresh_and_get_value).

(** [FakeOutput.writelines]. *)
Fixpoint writelines (fo : FakeOutput) (l : list pyval) : code pyval :=
  match l with
  | [] => Ret VNone
  | s :: l' => bind (write fo s) (fun _ => writelines fo l')
  end.

(** [FakeOutput.flush]. *)
Definition flush (fo : FakeOutput) : code pyval := Ret VNone.

(** [FakeOutput.isatty]. *)
Definition isatty (fo : FakeOutput) : code pyval := Ret (VBool true).

(** ** What the driver can do, and the states it can reach *)

(** The driver loads code, runs it one step, or is hit by SIGINT while it
    holds control.  An exception of a call is the driver's business; the
    state the call left is what the next call finds. *)
Inductive op : Type :=
| Load (src : string)
| Run (for_code : pyval)
| Signal.

Definition apply (o : op) (st : State) : State :=
  match o with
  | Load src => snd (load_code src st)
  | Run for_code => snd (run_code for_code st)
  | Signal => snd (deliver_sigint st)
  end.

(** The states of a runner made by [__init__] in a process whose main greenlet
    is the current one. *)
Inductive reachable : State -> Prop :=
| reach_init : forall i p,
    current p = GMain -> reachable (mk_State (__init__ i) p)
| reach_apply : forall o st, reachable st -> reachable (apply o st).

(** The fields agree as they should: no source means no greenlet, no
    greenlet means nothing waiting, a greenlet means a saved handler, and
    between two calls the driver is the current greenlet. *)
Record consistent (st : State) : Prop := mk_consistent {
  no_source : source (self st) = None -> code_greenlet (self st) = None;
  no_greenlet : code_greenlet (self st) = None ->
                code_is_waiting (self st) = false;
  saved_handler : code_greenlet (self st) <> None ->
                  orig_sigint_handler (self st) <> None;
  driver_current : current (proc st) = GMain
}.

(** Number of calls of [stuff_a_refresh_request] in a trace. *)
Fixpoint refreshes (tr : list event) : nat :=
  match tr with
  | [] => 0
  | RefreshRequest :: tr' => S (refreshes tr')
  | _ :: tr' => refreshes tr'
  end.

(** What a run of the code greenlet leaves alone: everything but the
    pending-interrupt flag and the trace, and the trace gets no call of the
    refresh callback. *)
Record worker_frame (st st' : State) : Prop := mk_worker_frame {
  wf_interp : interp (self st') = interp (self st);
  wf_source : source (self st') = source (self st);
  wf_greenlet : code_greenlet (self st') = code_greenlet (self st);
  wf_waiting : code_is_waiting (self st') = code_is_waiting (self st);
  wf_orig : orig_sigint_handler (self st') = orig_sigint_handler (self st);
  wf_slot : sigint_slot (proc st') = sigint_slot (proc st);
  wf_current : current (proc st') = current (proc st);
  wf_next : next_gid (proc st') = next_gid (proc st);
  wf_refreshes : refreshes (trace (proc st')) = refreshes (trace (proc st))
}.

(** ** The two halves of [run_code], taken apart *)

(** The state in which [run_code] switches into the code greenlet. *)
Definition before_switch (st : State) : State :=
  match code_greenlet (self st) with
  | None =>
      mk_State
        (set_orig_sigint_handler (Some (sigint_slot (proc st)))
           (set_code_greenlet
              (Some (mk_greenlet (next_gid (proc st))
                                 (GNew (_blocking_run_code (self st)))))
              (self st)))
        (set_sigint_slot RunnerHandler
           (set_next_gid (S (next_gid (proc st))) (proc st)))
  | Some _ =>
      mk_State
        (set_sigint_happened false (set_code_is_waiting false (self st)))
        (set_sigint_slot RunnerHandler (proc st))
  end.

(** The argument of that switch. *)
Definition switch_arg (for_code : pyval) (st : State) : option pyval :=
  match code_greenlet (self st) with
  | None => None
  | Some _ => Some (if sigint_happened (self st) then VSigintHappened
                    else for_code)
  end.

(** The assertion [run_code] makes before it switches. *)
Definition may_switch (st : State) : bool :=
  match code_greenlet (self st) with
  | None => negb (is_None (source (self st)))
  | Some _ => code_is_waiting (self st)
  end.

(** The handler that was in the slot before the runner took it: the slot
    itself before the first step, the saved handler afterwards. *)
Definition prior_handler (st : State) : option handler :=
  match code_greenlet (self st) with
  | None => Some (sigint_slot (proc st))
  | Some _ => orig_sigint_handler (self st)
  end.

(** ** Sample interpreters and runs *)

(** A process in which nothing has happened yet. *)
Definition fresh_process : Process :=
  mk_Process DefaultIntHandler GMain 0 [].

(** A sink that takes the data and returns [None], as [sys.stdout.write]. *)
Definition quiet_sink : FakeOutput := mk_FakeOutput (fun _ => Returns VNone).

(** As in [test_simple]: the statement prints once through a [FakeOutput]
    and is complete. *)
Definition printing_interp (src : option string) : code pyval :=
  bind (write quiet_sink (VStr "2")) (fun _ => Ret (VBool false)).

(** A statement that asks for input once and is complete. *)
Definition waiting_interp (src : option string) : code pyval :=
  bind wait_and_get_value (fun _ => Ret (VBool false)).

(** A statement that calls [sys.exit()]. *)
Definition exiting_interp (src : option string) : code pyval :=
  Raise SystemExit.

(** Code that switches to the main greenlet with a value of its own. *)
Definition bogus_interp (src : option string) : code pyval :=
  SwitchMain (VStr "bogus") (fun _ => Ret (VBool false)).

(** A new runner in a fresh process. *)
Definition start (i : option string -> code pyval) : State :=
  mk_State (__init__ i) fresh_process.

(** The runner with a statement loaded, and after one step of it. *)
Definition loaded (i : option string -> code pyval) : State :=
  apply (Load "1 + 1") (start i).
Definition stepped (i : option string -> code pyval) : State :=
  apply (Run VNone) (loaded i).

(** ** The greenlet at rest, and runs of several calls *)

(** The code of a greenlet that was started on [_blocking_run_code]: the
    run function of a runner whose interpreter has [c0] left to do. *)
Definition entry_code (c : code pyval) : Prop :=
  exists c0, c = _blocking_run_code (__init__ (fun _ => c0)).

(** The three values [_blocking_run_code] returns. *)
Definition final_request (v : pyval) : Prop :=
  v = VStr "SystemExit" \/ v = VStr "unfinished" \/ v = VStr "done".

(** How the greenlet object stands between two calls of the driver: it has
    been started, and what is left of it is code of [_blocking_run_code]. *)
Definition greenlet_at_rest (g : greenlet) : Prop :=
  match gstate_of g with
  | GNew _ => False
  | GSuspended k => forall x, entry_code (k x)
  | GDead => True
  end.

(** More of what holds between two calls: with a greenlet in place the
    runner's handler is in the SIGINT slot; the waiting flag is up only over
    a suspended greenlet; the greenlet is at rest. *)
Record settled (st : State) : Prop := mk_settled {
  handler_installed : code_greenlet (self st) <> None ->
                      sigint_slot (proc st) = RunnerHandler;
  waiting_suspended : code_is_waiting (self st) = true ->
                      exists g k, code_greenlet (self st) = Some g /\
                                  gstate_of g = GSuspended k;
  greenlet_rests : forall g, code_greenlet (self st) = Some g ->
                             greenlet_at_rest g
}.

(** A sequence of calls of the driver, one after the other. *)
Fixpoint drive (ops : list op) (st : State) : State :=
  match ops with
  | [] => st
  | o :: ops' => drive ops' (apply o st)
  end.

(** The call [o], made in [st], is a step that ends in
    [SystemExitFromCodeThread]. *)
Definition exits (o : op) (st : State) : bool :=
  match o with
  | Run for_code =>
      match fst (run_code for_code st) with
      | Raises SystemExitFromCodeThread => true
      | _ => false
      end
  | _ => false
  end.

(** No call of the sequence ends in [SystemExitFromCodeThread]. *)
Fixpoint no_exit (ops : list op) (st : State) : bool :=
  match ops with
  | [] => true
  | o :: ops' => negb (exits o st) && no_exit ops' (apply o st)
  end.

(** The runner can do nothing more: a source is loaded, a greenlet is in
    place, and nothing is waiting. *)
Definition stuck (st : State) : Prop :=
  source (self st) <> None /\
  code_greenlet (self st) <> None /\
  code_is_waiting (self st) = false.

(** The data of the host calls at the head of [c], in order. *)
Fixpoint called_head {A : Type} (c : code A) : list pyval :=
  match c with
  | CallOut f d k => d :: called_head (k (f d))
  | _ => []
  end.

(** The data of the host calls [c] makes while it goes through the
    responses [rs], in order. *)
Fixpoint called {A : Type} (c : code A) (rs : list response) {struct rs}
    : list pyval :=
  called_head c ++
  match rs with
  | [] => []
  | r :: rs' =>
      match calls c, r with
      | SwitchMain _ k, Resumed x => called (k x) rs'
      | Sigint k, Handled o => called (k o) rs'
      | _, _ => []
      end
  end.

(** [run_code] called once for each value of [vs]; the outcomes of the
    calls, in order, and the state after the last. *)
Fixpoint run_codes (vs : list pyval) (st : State)
    : list (outcome pyval) * State :=
  match vs with
  | [] => ([], st)
  | v :: vs' =>
      let (r, st1) := run_code v st in
      let (rs, st2) := run_codes vs' st1 in
      (r :: rs, st2)
  end.

(** An interpreter whose statement writes the lines [l] to [fo] and is
    complete. *)
Definition writing_interp (fo : FakeOutput) (l : list pyval)
    (src : option string) : code pyval :=
  bind (writelines fo l) (fun _ => Ret (VBool false)).

(** Nothing is loaded: no source, no greenlet, nothing waiting. *)
Definition unloaded (st : State) : Prop :=
  source (self st) = None /\
  code_greenlet (self st) = None /\
  code_is_waiting (self st) = false.

(** What a step that does not unload leaves as it was or sets: the source,
    which is there; the handler it saved; its own handler in the slot. *)
Definition kept (st st' : State) : Prop :=
  source (self st') = source (self st) /\
  source (self st) <> None /\
  orig_sigint_handler (self st') = prior_handler st /\
  sigint_slot (proc st') = RunnerHandler.

(** The ways a call of [run_code] made in [st] can end. *)
Inductive run_code_case (st : State) : outcome pyval -> State -> Prop :=
| case_refused :
    may_switch st = false ->
    run_code_case st (Raises AssertionError) st
| case_suspended : forall st' g k,
    code_greenlet (self st') = Some g -> gstate_of g = GSuspended k ->
    greenlet_at_rest g ->
    code_is_waiting (self st') = true -> kept st st' ->
    run_code_case st (Returns (VBool false)) st'
| case_finished : forall request st',
    request = VStr "done" \/ request = VStr "unfinished" ->
    unloaded st' -> orig_sigint_handler (self st') = None ->
    prior_handler st = Some (sigint_slot (proc st')) ->
    run_code_case st (Returns request) st'
| case_exited : forall st',
    unloaded st' -> orig_sigint_handler (self st') = prior_handler st ->
    sigint_slot (proc st') = RunnerHandler ->
    run_code_case st (Raises SystemExitFromCodeThread) st'
| case_defect : forall request st' g k,
    in_strs request ["wait"; "refresh"; "done"; "unfinished"; "SystemExit"] =
      false ->
    code_greenlet (self st') = Some g -> gstate_of g = GSuspended k ->
    greenlet_at_rest g ->
    code_is_waiting (self st') = false -> kept st st' ->
    run_code_case st (Raises (ValueError request)) st'
| case_raised : forall e st' g,
    is_SystemExit e = false ->
    code_greenlet (self st') = Some g -> gstate_of g = GDead ->
    code_is_waiting (self st') = false -> kept st st' ->
    run_code_case st (Raises e) st'.

(** An interpreter whose statement asks for input once and goes on with
    [body] on what it gets. *)
Definition reading_interp (body : pyval -> code pyval)
    (src : option string) : code pyval :=
  bind wait_and_get_value body.

(** ** The code greenlet and the runner's fields *)

Lemma refreshes_app : forall tr tr',
  refreshes (tr ++ tr') = refreshes tr + refreshes tr'.
Proof.
  induction tr as [|e tr IH]; intros tr'; simpl.
  - reflexivity.
  - destruct e; simpl; rewrite IH; reflexivity.
Qed.

Lemma worker_frame_refl : forall st, worker_frame st st.
Proof. intros st; constructor; reflexivity. Qed.

Lemma worker_frame_trans : forall st1 st2 st3,
  worker_frame st1 st2 -> worker_frame st2 st3 -> worker_frame st1 st3.
Proof.
  intros st1 st2 st3 [] []; constructor; etransitivity; eassumption.
Qed.

Lemma sigint_handler_frame : forall st r st',
  sigint_handler st = (r, st') -> worker_frame st st'.
Proof.
  intros st r st'. unfold sigint_handler, mbind, get_self, get_proc.
  destruct (current_is _ _); intros H; inversion H; subst;
    constructor; reflexivity.
Qed.

Lemma deliver_sigint_frame : forall st r st',
  deliver_sigint st = (r, st') -> worker_frame st st'.
Proof.
  intros st r st'. unfold deliver_sigint, mbind, get_proc.
  destruct (sigint_slot (proc st)) eqn:Hslot.
  - intros H; inversion H; subst. apply worker_frame_refl.
  - intros H; inversion H; subst. constructor; try reflexivity.
    simpl. rewrite refreshes_app. simpl. lia.
  - apply sigint_handler_frame.
Qed.

Lemma run_worker_frame : forall c st r st',
  run_worker c st = (r, st') -> worker_frame st st'.
Proof.
  induction c as [a|e|v k IH|f d k IH|k IH]; intros st r st' H; simpl in H.
  - inversion H; subst. apply worker_frame_refl.
  - inversion H; subst. apply worker_frame_refl.
  - inversion H; subst. apply worker_frame_refl.
  - apply IH in H. eapply worker_frame_trans; [|exact H].
    constructor; try reflexivity.
    simpl. rewrite refreshes_app. simpl. lia.
  - destruct (deliver_sigint st) as [o st1] eqn:Hd.
    apply IH in H. apply deliver_sigint_frame in Hd.
    eapply worker_frame_trans; eassumption.
Qed.

(** While the code greenlet is the current one and the runner's handler is
    in the slot, SIGINT raises [KeyboardInterrupt] there and then, and the
    runner's fields stay as they are. *)
Lemma run_worker_self : forall c st r st',
  sigint_slot (proc st) = RunnerHandler ->
  current_is (current (proc st)) (code_greenlet (self st)) = true ->
  run_worker c st = (r, st') -> self st' = self st.
Proof.
  induction c as [a|e|v k IH|f d k IH|k IH]; intros st r st' Hs Hc H; simpl in H.
  - inversion H; reflexivity.
  - inversion H; reflexivity.
  - inversion H; reflexivity.
  - apply IH in H; simpl; auto.
  - unfold deliver_sigint, mbind, get_proc in H. rewrite Hs in H.
    unfold sigint_handler, mbind, get_self, get_proc in H.
    rewrite Hc in H. simpl in H. apply IH in H; auto.
Qed.

(** A switch into the code greenlet, made with the runner's handler in the
    slot, changes the greenlet object and the trace, and nothing else. *)
Lemma greenlet_switch_spec : forall arg st g r st',
  code_greenlet (self st) = Some g ->
  sigint_slot (proc st) = RunnerHandler ->
  greenlet_switch arg st = (r, st') ->
  exists gs,
    self st' = set_code_greenlet (Some (mk_greenlet (gid g) gs)) (self st) /\
    sigint_slot (proc st') = RunnerHandler /\
    current (proc st') = GMain /\
    next_gid (proc st') = next_gid (proc st) /\
    refreshes (trace (proc st')) = refreshes (trace (proc st)).
Proof.
  intros arg st g r st' Hg Hs H. unfold greenlet_switch in H. rewrite Hg in H.
  match type of H with
  | context [run_worker ?c ?s] => destruct (run_worker c s) as [sw st2] eqn:Hrun
  end.
  assert (Hself : self st2 = self st).
  { apply run_worker_self in Hrun; simpl; auto.
    rewrite Hg. simpl. apply Nat.eqb_refl. }
  apply run_worker_frame in Hrun. destruct Hrun; simpl in *.
  destruct sw; inversion H; subst; clear H; unfold back_in_main; simpl;
    rewrite Hself; eexists; repeat split; try reflexivity; congruence.
Qed.

Lemma run_code_switch_unfold : forall for_code st,
  run_code_switch for_code st =
  if may_switch st then greenlet_switch (switch_arg for_code st) (before_switch st)
  else (Raises AssertionError, st).
Proof.
  intros for_code [me p]. unfold run_code_switch, may_switch, switch_arg,
    before_switch, mbind, get_self. simpl.
  destruct (code_greenlet me) as [g|] eqn:Hg.
  - destruct (code_is_waiting me); simpl; [|reflexivity].
    destruct (sigint_happened me) eqn:Hf; simpl; [reflexivity|].
    destruct me; simpl in *; subst; reflexivity.
  - destruct (source me); simpl; reflexivity.
Qed.

(** What the first half of [run_code] leaves: the assertion failed and
    nothing changed, or the switch was made from [before_switch st] and only
    the greenlet object and the trace moved. *)
Lemma run_code_switch_spec : forall for_code st r st1,
  run_code_switch for_code st = (r, st1) ->
  (may_switch st = false /\ r = Raises AssertionError /\ st1 = st) \/
  (may_switch st = true /\
   exists g gs,
     code_greenlet (self (before_switch st)) = Some g /\
     self st1 = set_code_greenlet (Some (mk_greenlet (gid g) gs))
                  (self (before_switch st)) /\
     sigint_slot (proc st1) = RunnerHandler /\
     current (proc st1) = GMain /\
     next_gid (proc st1) = next_gid (proc (before_switch st)) /\
     refreshes (trace (proc st1)) = refreshes (trace (proc st))).
Proof.
  intros for_code st r st1 H. rewrite run_code_switch_unfold in H.
  destruct (may_switch st) eqn:Hm.
  - right. split; [reflexivity|].
    assert (Hg : exists g, code_greenlet (self (before_switch st)) = Some g).
    { unfold before_switch. destruct (code_greenlet (self st)) eqn:E; simpl;
        rewrite ?E; eexists; reflexivity. }
    destruct Hg as [g Hg].
    assert (Hs : sigint_slot (proc (before_switch st)) = RunnerHandler).
    { unfold before_switch. destruct (code_greenlet (self st)); reflexivity. }
    destruct (greenlet_switch_spec _ _ _ _ _ Hg Hs H)
      as (gs & Hself & Hslot & Hcur & Hnext & Hrefr).
    exists g, gs. repeat split; auto.
    rewrite Hrefr. unfold before_switch.
    destruct (code_greenlet (self st)); reflexivity.
  - left. inversion H; auto.
Qed.

(** A request only comes back from a switch, and then a greenlet object is
    in place. *)
Lemma run_code_switch_returns : forall for_code st request st1,
  run_code_switch for_code st = (Returns request, st1) ->
  exists g gs,
    code_greenlet (self (before_switch st)) = Some g /\
    self st1 = set_code_greenlet (Some (mk_greenlet (gid g) gs))
                 (self (before_switch st)) /\
    sigint_slot (proc st1) = RunnerHandler /\
    current (proc st1) = GMain /\
    refreshes (trace (proc st1)) = refreshes (trace (proc st)).
Proof.
  intros for_code st request st1 H.
  destruct (run_code_switch_spec _ _ _ _ H)
    as [(_ & Hr & _)|(_ & g & gs & Hg & Hself & Hslot & Hcur & _ & Hrefr)].
  - discriminate.
  - exists g, gs. auto.
Qed.

(** ** The invariant *)

Lemma init_consistent : forall i p,
  current p = GMain -> consistent (mk_State (__init__ i) p).
Proof.
  intros i p Hp. constructor; simpl; auto; congruence.
Qed.

Lemma load_code_consistent : forall src st,
  consistent st -> consistent (snd (load_code src st)).
Proof.
  intros src st Hst. pose proof Hst as [Ha Hb Hc Hd].
  unfold load_code, mbind, get_self, assert_. simpl.
  destruct (source (self st)) eqn:Hsrc; simpl.
  - exact Hst.
  - specialize (Ha eq_refl). specialize (Hb Ha).
    constructor; simpl; auto; congruence.
Qed.

Lemma deliver_sigint_consistent : forall st,
  consistent st -> consistent (snd (deliver_sigint st)).
Proof.
  intros st Hc. destruct (deliver_sigint st) as [r st'] eqn:H. simpl.
  apply deliver_sigint_frame in H.
  destruct H as [_ Hs Hg Hw Ho _ Hcu _ _]. destruct Hc as [Ha Hb Hc Hd].
  constructor; rewrite ?Hs, ?Hg, ?Hw, ?Ho, ?Hcu; assumption.
Qed.

Lemma run_code_switch_consistent : forall for_code st r st1,
  consistent st ->
  run_code_switch for_code st = (r, st1) ->
  consistent st1 /\
  (may_switch st = true -> code_greenlet (self st1) <> None /\
                           source (self st1) <> None /\
                           code_is_waiting (self st1) = false).
Proof.
  intros for_code st r st1 [Ha Hb Hc Hd] H.
  destruct (run_code_switch_spec _ _ _ _ H)
    as [(Hm & _ & ->)|(Hm & g & gs & Hg & Hself & Hslot & Hcur & _ & _)].
  - split; [constructor; auto|congruence].
  - assert (Hsrc : source (self st) <> None).
    { unfold may_switch in Hm. destruct (code_greenlet (self st)) eqn:E.
      - intros Hn. apply Ha in Hn. congruence.
      - destruct (source (self st)); simpl in Hm; congruence. }
    assert (Hfacts : code_greenlet (self st1) <> None /\
                     source (self st1) = source (self st) /\
                     code_is_waiting (self st1) = false /\
                     orig_sigint_handler (self st1) <> None).
    { rewrite Hself. unfold before_switch.
      destruct (code_greenlet (self st)) eqn:E; simpl;
        repeat split; try congruence.
      - apply Hc. congruence.
      - apply Hb. reflexivity. }
    destruct Hfacts as (F1 & F2 & F3 & F4).
    split; [constructor; auto; try congruence|].
    intros _. repeat split; congruence.
Qed.

Lemma run_code_request_consistent : forall request st1 r st',
  consistent st1 ->
  code_greenlet (self st1) <> None ->
  source (self st1) <> None ->
  run_code_request request st1 = (r, st') ->
  consistent st'.
Proof.
  intros request st1 r st' [Ha Hb Hc Hd] Hg Hsrc H.
  unfold run_code_request in H.
  destruct (in_strs request ["wait"; "refresh"]).
  { unfold mbind, upd_self, stuff_a_refresh_request, upd_proc, ret in H.
    destruct (eq_str request "refresh"); simpl in H; inversion H; subst;
      constructor; simpl; auto; congruence. }
  destruct (in_strs request ["done"; "unfinished"]).
  { unfold _unload_code, mbind, upd_self, get_self, signal_signal in H.
    simpl in H.
    destruct (orig_sigint_handler (self st1)) as [h|] eqn:Ho;
      simpl in H; inversion H; subst; constructor; simpl; auto; congruence. }
  destruct (in_strs request ["SystemExit"]).
  { unfold _unload_code, mbind, upd_self, raise in H. simpl in H.
    inversion H; subst; constructor; simpl; auto; congruence. }
  unfold raise in H. inversion H; subst. constructor; auto.
Qed.

Lemma run_code_consistent : forall for_code st,
  consistent st -> consistent (snd (run_code for_code st)).
Proof.
  intros for_code st Hc. unfold run_code, mbind.
  destruct (run_code_switch for_code st) as [r st1] eqn:Hsw.
  destruct (run_code_switch_consistent _ _ _ _ Hc Hsw) as [Hc1 Hmay].
  destruct r as [request|e]; [|exact Hc1].
  destruct (run_code_switch_spec _ _ _ _ Hsw) as [(_ & Hr & _)|(Hm & _)];
    [discriminate|].
  destruct (Hmay Hm) as (Hg & Hsrc & _).
  destruct (run_code_request request st1) as [r' st'] eqn:Hrq. simpl.
  eapply run_code_request_consistent; eassumption.
Qed.

(** Every state the driver can reach is consistent. *)
Lemma reachable_consistent : forall st, reachable st -> consistent st.
Proof.
  induction 1 as [i p Hp|o st _ IH].
  - apply init_consistent; assumption.
  - destruct o; simpl.
    + apply load_code_consistent; assumption.
    + apply run_code_consistent; assumption.
    + apply deliver_sigint_consistent; assumption.
Qed.

Lemma reachable_start : forall i, reachable (start i).
Proof. intros i. apply reach_init. reflexivity. Qed.

(** ** load_code *)

(** C6: in every state the driver can reach, [load_code] fails its assertion
    (and changes nothing) whenever a source is loaded or a code greenlet is
    in place; otherwise it returns, the source is recorded, and there is no
    greenlet and nothing waiting.  A second [load_code] right after a first
    one fails. *)
Theorem load_code_reentry : forall src st,
  reachable st ->
  (source (self st) <> None \/ code_greenlet (self st) <> None ->
   load_code src st = (Raises AssertionError, st)) /\
  (source (self st) = None /\ code_greenlet (self st) = None ->
   exists st',
     load_code src st = (Returns tt, st') /\
     source (self st') = Some src /\
     code_greenlet (self st') = None /\
     code_is_waiting (self st') = false /\
     sigint_happened (self st') = sigint_happened (self st) /\
     orig_sigint_handler (self st') = orig_sigint_handler (self st) /\
     proc st' = proc st /\
     forall src2, load_code src2 st' = (Raises AssertionError, st')).
Proof.
  intros src st Hr. apply reachable_consistent in Hr.
  destruct Hr as [Ha Hb _ _]. split.
  - intros Hloaded.
    assert (Hsrc : source (self st) <> None).
    { destruct Hloaded as [H|H]; [exact H|]. intros Hn. apply H, Ha, Hn. }
    unfold load_code, mbind, get_self, assert_.
    destruct (source (self st)); [reflexivity|congruence].
  - intros [Hsrc Hg].
    unfold load_code, mbind, get_self, assert_, upd_self.
    rewrite Hsrc. simpl. eexists. split; [reflexivity|]. simpl.
    repeat split; auto.
Qed.

Lemma load_code_reentry_witness :
  reachable (loaded printing_interp) /\
  load_code "2 + 2" (loaded printing_interp) =
    (Raises AssertionError, loaded printing_interp).
Proof.
  split.
  - apply reach_apply, reachable_start.
  - apply (load_code_reentry "2 + 2" (loaded printing_interp)).
    + apply reach_apply, reachable_start.
    + left. simpl. discriminate.
Defined.

(** ** running *)

(** [bool(self.running)] is true for a non-empty source and an active
    greenlet, and in no other case. *)
Lemma running_truthy_iff : forall me,
  running_truthy me = true <->
  exists s g, source me = Some s /\ s <> "" /\
              code_greenlet me = Some g /\ greenlet_active g = true.
Proof.
  intros me. unfold running_truthy, running, source_truthy.
  destruct (source me) as [s|].
  - destruct (String.eqb_spec s "") as [->|Hne]; simpl.
    + split; [discriminate|]. intros (s & g & Hs & Hne & _).
      inversion Hs; subst. congruence.
    + destruct (code_greenlet me) as [g|].
      * split.
        -- intros Ha. exists s, g. auto.
        -- intros (s' & g' & _ & _ & Hg & Ha). inversion Hg; subst. exact Ha.
      * split; [discriminate|]. intros (s' & g' & _ & _ & Hg & _). discriminate.
  - split; [discriminate|]. intros (s & g & Hs & _). discriminate.
Qed.

(** C10: with the empty string loaded and the code greenlet started and
    suspended, [running] is the empty string, which is false, although a
    source is loaded and the greenlet is in place and active; with a
    non-empty source the same run makes [running] true. *)
Theorem running_empty_source :
  source (self (apply (Run VNone) (apply (Load "") (start waiting_interp)))) =
    Some "" /\
  (exists g,
     code_greenlet
       (self (apply (Run VNone) (apply (Load "") (start waiting_interp)))) =
       Some g /\
     greenlet_active g = true) /\
  running (self (apply (Run VNone) (apply (Load "") (start waiting_interp)))) =
    RunSource (Some "") /\
  running_truthy
    (self (apply (Run VNone) (apply (Load "") (start waiting_interp)))) =
    false /\
  running_truthy (self (stepped waiting_interp)) = true.
Proof.
  simpl. repeat split. eexists. split; reflexivity.
Qed.

(** ** The SIGINT handler *)

(** C2: with the runner's handler in the slot, a SIGINT that arrives while
    the code greenlet is the current greenlet raises [KeyboardInterrupt]
    there and leaves the runner as it is, also in the middle of a run of
    that greenlet; one that arrives while any other greenlet is current
    raises nothing and sets [sigint_happened]. *)
Theorem sigint_dispatch : forall st,
  sigint_slot (proc st) = RunnerHandler ->
  (forall g, code_greenlet (self st) = Some g ->
             current (proc st) = GCode (gid g) ->
             deliver_sigint st = (Raises KeyboardInterrupt, st) /\
             forall k, run_worker (Sigint k) st =
                       run_worker (k (Raises KeyboardInterrupt)) st) /\
  ((forall g, code_greenlet (self st) = Some g ->
              current (proc st) <> GCode (gid g)) ->
   deliver_sigint st =
     (Returns tt, mk_State (set_sigint_happened true (self st)) (proc st))).
Proof.
  intros st Hs. split.
  - intros g Hg Hc.
    assert (Hd : deliver_sigint st = (Raises KeyboardInterrupt, st)).
    { unfold deliver_sigint, sigint_handler, mbind, get_self, get_proc.
      rewrite Hs, Hg, Hc. simpl. rewrite Nat.eqb_refl. reflexivity. }
    split; [exact Hd|]. intros k. simpl. rewrite Hd. reflexivity.
  - intros Hother.
    unfold deliver_sigint, sigint_handler, mbind, get_self, get_proc.
    rewrite Hs.
    destruct (current_is (current (proc st)) (code_greenlet (self st))) eqn:E;
      [|reflexivity].
    unfold current_is in E.
    destruct (current (proc st)) as [|i] eqn:Hc; [discriminate|].
    destruct (code_greenlet (self st)) as [g|] eqn:Hg; [|discriminate].
    apply Nat.eqb_eq in E. subst i. exfalso. apply (Hother g); reflexivity.
Qed.

Lemma sigint_dispatch_witness :
  sigint_slot (proc (stepped printing_interp)) = RunnerHandler /\
  sigint_happened (self (stepped printing_interp)) = false /\
  deliver_sigint (stepped printing_interp) =
    (Returns tt,
     mk_State (set_sigint_happened true (self (stepped printing_interp)))
              (proc (stepped printing_interp))).
Proof.
  split; [reflexivity|]. split; [reflexivity|].
  apply (sigint_dispatch (stepped printing_interp)).
  - reflexivity.
  - intros g Hg. simpl. discriminate.
Defined.

(** ** run_code: resuming with a pending interrupt *)

(** C1: when [run_code] resumes a waiting code greenlet and
    [sigint_happened] is set, the call is the one that hands over
    [SigintHappened] with the flag down, whatever [for_code] is; the flag is
    down afterwards; the greenlet goes on with what its suspension makes of
    [SigintHappened].  In the greenlet, [wait_and_get_value] and
    [refresh_and_get_value] switch out once and, switched back in, raise
    [KeyboardInterrupt] on [SigintHappened] and return any other value as it
    is. *)
Theorem pending_interrupt_delivered : forall for_code st g,
  code_greenlet (self st) = Some g ->
  code_is_waiting (self st) = true ->
  sigint_happened (self st) = true ->
  run_code for_code st =
    run_code VSigintHappened
      (mk_State (set_sigint_happened false (self st)) (proc st)) /\
  sigint_happened (self (snd (run_code for_code st))) = false /\
  (forall k, gstate_of g = GSuspended k ->
     run_code_switch for_code st =
       match run_worker (k VSigintHappened)
               (mk_State (self (before_switch st))
                  (set_current (GCode (gid g)) (proc (before_switch st)))) with
       | (Yielded v k', st2) => (Returns v, back_in_main g (GSuspended k') st2)
       | (Finished v, st2) => (Returns v, back_in_main g GDead st2)
       | (Propagated e, st2) => (Raises e, back_in_main g GDead st2)
       end) /\
  (forall x,
     feed wait_and_get_value [Resumed x] =
       (if is_SigintHappened x then Raise KeyboardInterrupt else Ret x) /\
     feed refresh_and_get_value [Resumed x] =
       (if is_SigintHappened x then Raise KeyboardInterrupt else Ret x)).
Proof.
  intros for_code st g Hg Hw Hf.
  assert (Hsw : forall v,
    run_code_switch v st =
      greenlet_switch (Some VSigintHappened) (before_switch st)).
  { intros v. rewrite run_code_switch_unfold.
    unfold may_switch, switch_arg. rewrite Hg, Hw, Hf. reflexivity. }
  assert (Hsw' :
    run_code_switch VSigintHappened
      (mk_State (set_sigint_happened false (self st)) (proc st)) =
      greenlet_switch (Some VSigintHappened) (before_switch st)).
  { rewrite run_code_switch_unfold.
    unfold may_switch, switch_arg, before_switch. simpl.
    rewrite Hg, Hw. reflexivity. }
  split; [|split; [|split]].
  - unfold run_code, mbind. rewrite Hsw, Hsw'. reflexivity.
  - unfold run_code, mbind.
    destruct (run_code_switch for_code st) as [r st1] eqn:Hrun.
    assert (Hf1 : sigint_happened (self st1) = false).
    { destruct (run_code_switch_spec _ _ _ _ Hrun)
        as [(Hm & _)|(_ & g1 & gs & _ & Hself & _)].
      - unfold may_switch in Hm. rewrite Hg, Hw in Hm. discriminate.
      - rewrite Hself. unfold before_switch. rewrite Hg. reflexivity. }
    destruct r as [request|e]; [|exact Hf1].
    unfold run_code_request.
    destruct (in_strs request ["wait"; "refresh"]).
    { unfold mbind, upd_self, stuff_a_refresh_request, upd_proc, ret.
      destruct (eq_str request "refresh"); simpl; exact Hf1. }
    destruct (in_strs request ["done"; "unfinished"]).
    { unfold _unload_code, mbind, upd_self, get_self, signal_signal. simpl.
      destruct (orig_sigint_handler (self st1)); simpl; exact Hf1. }
    destruct (in_strs request ["SystemExit"]); simpl; exact Hf1.
  - intros k Hk. rewrite Hsw. unfold greenlet_switch.
    assert (Hg' : code_greenlet (self (before_switch st)) = Some g).
    { unfold before_switch. rewrite Hg. simpl. exact Hg. }
    rewrite Hg', Hk. reflexivity.
  - intros x. destruct x; split; reflexivity.
Qed.

Lemma pending_interrupt_delivered_witness :
  code_is_waiting (self (apply Signal (stepped waiting_interp))) = true /\
  sigint_happened (self (apply Signal (stepped waiting_interp))) = true /\
  run_code (VStr "typed") (apply Signal (stepped waiting_interp)) =
    run_code VSigintHappened
      (mk_State
         (set_sigint_happened false
            (self (apply Signal (stepped waiting_interp))))
         (proc (apply Signal (stepped waiting_interp)))) /\
  fst (run_code (VStr "typed") (apply Signal (stepped waiting_interp))) =
    Raises KeyboardInterrupt.
Proof.
  split; [reflexivity|]. split; [reflexivity|]. split; [|reflexivity].
  refine (proj1 (pending_interrupt_delivered (VStr "typed")
                   (apply Signal (stepped waiting_interp)) _ _ _ _));
    reflexivity.
Defined.

(** ** run_code: what is done with the request *)

(** When a request came back, the saved handler is the one that was in the
    slot before the runner took it, and there is one in every reachable
    state. *)
Lemma switch_saves_prior : forall for_code st request st1,
  run_code_switch for_code st = (Returns request, st1) ->
  orig_sigint_handler (self st1) = prior_handler st /\
  code_greenlet (self st1) <> None /\
  source (self st1) = source (self st).
Proof.
  intros for_code st request st1 H.
  destruct (run_code_switch_returns _ _ _ _ H) as (g & gs & _ & Hself & _).
  rewrite Hself. unfold before_switch, prior_handler.
  destruct (code_greenlet (self st)); simpl; repeat split; congruence.
Qed.

Lemma prior_handler_some : forall st,
  consistent st -> exists h, prior_handler st = Some h.
Proof.
  intros st [_ _ Hc _]. unfold prior_handler.
  destruct (code_greenlet (self st)) as [g|] eqn:Hg.
  - destruct (orig_sigint_handler (self st)) as [h|] eqn:Ho.
    + exists h; reflexivity.
    + exfalso. apply Hc; [congruence|reflexivity].
  - eexists; reflexivity.
Qed.

(** C8: when ['wait'] or ['refresh'] comes back from the code greenlet,
    [run_code] returns [False] with [code_is_waiting] set and the greenlet
    and the source kept; the refresh callback is called once when the
    request is ['refresh'] and not at all when it is ['wait'], and the code
    greenlet itself never calls it. *)
Theorem suspension_recorded : forall for_code st request st1,
  run_code_switch for_code st = (Returns request, st1) ->
  request = VStr "wait" \/ request = VStr "refresh" ->
  exists st',
    run_code for_code st = (Returns (VBool false), st') /\
    code_is_waiting (self st') = true /\
    code_greenlet (self st') = code_greenlet (self st1) /\
    code_greenlet (self st') <> None /\
    source (self st') = source (self st) /\
    trace (proc st') =
      trace (proc st1) ++
      (if eq_str request "refresh" then [RefreshRequest] else []) /\
    refreshes (trace (proc st')) =
      refreshes (trace (proc st)) +
      (if eq_str request "refresh" then 1 else 0).
Proof.
  intros for_code st request st1 Hsw Hreq.
  destruct (switch_saves_prior _ _ _ _ Hsw) as (_ & Hg & Hsrc).
  destruct (run_code_switch_returns _ _ _ _ Hsw)
    as (_ & _ & _ & _ & _ & _ & Hrefr).
  unfold run_code, mbind. rewrite Hsw.
  destruct Hreq as [-> | ->]; simpl; eexists; (split; [reflexivity|]); simpl;
    repeat split; auto.
  - rewrite app_nil_r. reflexivity.
  - lia.
  - rewrite refreshes_app. simpl. lia.
Qed.

Lemma suspension_recorded_witness :
  fst (run_code_switch VNone (loaded printing_interp)) =
    Returns (VStr "refresh") /\
  fst (run_code VNone (loaded printing_interp)) = Returns (VBool false) /\
  code_is_waiting (self (stepped printing_interp)) = true /\
  refreshes (trace (proc (stepped printing_interp))) = 1.
Proof.
  destruct (suspension_recorded VNone (loaded printing_interp)
              (VStr "refresh")
              (snd (run_code_switch VNone (loaded printing_interp)))
              eq_refl (or_intror eq_refl))
    as (st' & Hrun & Hw & _ & _ & _ & _ & Hrefr).
  change (stepped printing_interp)
    with (snd (run_code VNone (loaded printing_interp))).
  rewrite Hrun.
  split; [reflexivity|]. split; [reflexivity|].
  split; [exact Hw|exact Hrefr].
Defined.

(** C5: in every state the driver can reach, when ['done'] or
    ['unfinished'] comes back from the code greenlet, [run_code] returns
    that very value; the source, the greenlet and the waiting flag are
    cleared, no handler is saved any more, and the SIGINT slot holds the
    handler that was there before the runner took it. *)
Theorem completion_unloads : forall for_code st request st1,
  reachable st ->
  run_code_switch for_code st = (Returns request, st1) ->
  request = VStr "done" \/ request = VStr "unfinished" ->
  exists st',
    run_code for_code st = (Returns request, st') /\
    source (self st') = None /\
    code_greenlet (self st') = None /\
    code_is_waiting (self st') = false /\
    orig_sigint_handler (self st') = None /\
    prior_handler st = Some (sigint_slot (proc st')) /\
    running_truthy (self st') = false.
Proof.
  intros for_code st request st1 Hr Hsw Hreq.
  apply reachable_consistent in Hr.
  destruct (prior_handler_some st Hr) as [h Hh].
  destruct (switch_saves_prior _ _ _ _ Hsw) as (Ho & _ & _).
  rewrite Hh in Ho.
  unfold run_code, mbind. rewrite Hsw.
  destruct Hreq as [-> | ->];
    unfold run_code_request, _unload_code, mbind, upd_self, get_self; simpl;
    rewrite Ho; simpl;
    eexists; (split; [reflexivity|]); simpl; repeat split; auto.
Qed.

Lemma completion_unloads_witness :
  reachable (stepped printing_interp) /\
  fst (run_code_switch (VInt 0) (stepped printing_interp)) =
    Returns (VStr "done") /\
  fst (run_code (VInt 0) (stepped printing_interp)) = Returns (VStr "done") /\
  code_greenlet (self (apply (Run (VInt 0)) (stepped printing_interp))) = None /\
  sigint_slot (proc (apply (Run (VInt 0)) (stepped printing_interp))) =
    DefaultIntHandler.
Proof.
  assert (Hr : reachable (stepped printing_interp)).
  { apply reach_apply, reach_apply, reachable_start. }
  destruct (completion_unloads (VInt 0) (stepped printing_interp)
              (VStr "done")
              (snd (run_code_switch (VInt 0) (stepped printing_interp)))
              Hr eq_refl (or_introl eq_refl))
    as (st' & Hrun & _ & Hg & _ & _ & Hprior & _).
  change (apply (Run (VInt 0)) (stepped printing_interp))
    with (snd (run_code (VInt 0) (stepped printing_interp))).
  rewrite Hrun.
  split; [exact Hr|]. split; [reflexivity|]. split; [reflexivity|].
  split; [exact Hg|].
  simpl in Hprior. inversion Hprior as [Hslot]. simpl. symmetry. exact Hslot.
Defined.

(** C3: in every state the driver can reach, when ['SystemExit'] comes back
    from the code greenlet, [run_code] clears the source, the greenlet and
    the waiting flag and raises [SystemExitFromCodeThread]; but the SIGINT
    slot still holds the runner's handler, and the handler that was there
    before stays saved in [orig_sigint_handler]: it is not put back. *)
Theorem termination_keeps_handler : forall for_code st st1,
  reachable st ->
  run_code_switch for_code st = (Returns (VStr "SystemExit"), st1) ->
  exists st' h,
    run_code for_code st = (Raises SystemExitFromCodeThread, st') /\
    source (self st') = None /\
    code_greenlet (self st') = None /\
    code_is_waiting (self st') = false /\
    prior_handler st = Some h /\
    orig_sigint_handler (self st') = Some h /\
    sigint_slot (proc st') = RunnerHandler.
Proof.
  intros for_code st st1 Hr Hsw.
  apply reachable_consistent in Hr.
  destruct (prior_handler_some st Hr) as [h Hh].
  destruct (switch_saves_prior _ _ _ _ Hsw) as (Ho & _ & _).
  destruct (run_code_switch_returns _ _ _ _ Hsw)
    as (_ & _ & _ & _ & Hslot & _ & _).
  rewrite Hh in Ho.
  unfold run_code, mbind. rewrite Hsw. simpl.
  eexists. exists h. split; [reflexivity|]. simpl. repeat split; auto.
Qed.

Lemma termination_keeps_handler_witness :
  reachable (loaded exiting_interp) /\
  fst (run_code_switch VNone (loaded exiting_interp)) =
    Returns (VStr "SystemExit") /\
  fst (run_code VNone (loaded exiting_interp)) =
    Raises SystemExitFromCodeThread /\
  sigint_slot (proc (loaded exiting_interp)) = DefaultIntHandler /\
  sigint_slot (proc (stepped exiting_interp)) = RunnerHandler /\
  orig_sigint_handler (self (stepped exiting_interp)) = Some DefaultIntHandler.
Proof.
  assert (Hr : reachable (loaded exiting_interp)).
  { apply reach_apply, reachable_start. }
  destruct (termination_keeps_handler VNone (loaded exiting_interp)
              (snd (run_code_switch VNone (loaded exiting_interp)))
              Hr eq_refl)
    as (st' & h & Hrun & _ & _ & _ & Hprior & Ho & Hslot).
  change (stepped exiting_interp)
    with (snd (run_code VNone (loaded exiting_interp))).
  rewrite Hrun.
  split; [exact Hr|]. split; [reflexivity|]. split; [reflexivity|].
  split; [reflexivity|]. split; [exact Hslot|].
  simpl in Hprior. inversion Hprior as [Hh]. simpl. rewrite Hh. exact Ho.
Defined.

(** After a statement that exits, the next statement saves the runner's own
    handler as the one to put back: the handler of the host is lost. *)
Lemma handler_lost_after_exit :
  sigint_slot (proc (start exiting_interp)) = DefaultIntHandler /\
  sigint_slot
    (proc (apply (Run VNone) (apply (Load "2 + 2") (stepped exiting_interp)))) =
    RunnerHandler.
Proof. split; reflexivity. Qed.

Lemma in_strs_inv : forall request l,
  in_strs request l = true -> exists s, In s l /\ request = VStr s.
Proof.
  intros request l H. unfold in_strs in H. apply existsb_exists in H.
  destruct H as (s & Hin & Heq). exists s. split; [exact Hin|].
  destruct request; simpl in Heq; try discriminate.
  apply String.eqb_eq in Heq. congruence.
Qed.

(** C4, counterexample: code that switches to the main greenlet with
    ['bogus'] makes [run_code] raise [ValueError], and the code greenlet is
    still in place afterwards. *)
Lemma protocol_defect_counterexample :
  ~ (fst (run_code VNone (loaded bogus_interp)) =
       Raises (ValueError (VStr "bogus")) /\
     code_greenlet (self (snd (run_code VNone (loaded bogus_interp)))) = None).
Proof.
  intros [_ H]. simpl in H. discriminate.
Qed.

(** C4, amended: in every state the driver can reach, when a request other
    than ['wait'], ['refresh'], ['done'], ['unfinished'] and ['SystemExit']
    comes back from the code greenlet, [run_code] raises [ValueError] on it
    and changes nothing more: the code greenlet and the source stay in
    place.  Whatever the request, the greenlet is dropped exactly when it is
    ['done'], ['unfinished'] or ['SystemExit']. *)
Theorem unknown_request_raises : forall for_code st request st1,
  reachable st ->
  run_code_switch for_code st = (Returns request, st1) ->
  (in_strs request ["wait"; "refresh"; "done"; "unfinished"; "SystemExit"] =
     false ->
   run_code for_code st = (Raises (ValueError request), st1) /\
   code_greenlet (self st1) <> None /\
   source (self st1) <> None /\
   source (self st1) = source (self st)) /\
  (code_greenlet (self (snd (run_code for_code st))) = None <->
   in_strs request ["done"; "unfinished"; "SystemExit"] = true).
Proof.
  intros for_code st request st1 Hr Hsw.
  apply reachable_consistent in Hr.
  destruct (switch_saves_prior _ _ _ _ Hsw) as (_ & Hg & Hsrc).
  destruct (run_code_switch_consistent _ _ _ _ Hr Hsw) as [_ Hmay].
  destruct (run_code_switch_spec _ _ _ _ Hsw) as [(_ & Hx & _)|(Hm & _)];
    [discriminate|].
  destruct (Hmay Hm) as (_ & Hsrc1 & _).
  split.
  - intros Hnot. unfold run_code, mbind. rewrite Hsw.
    unfold run_code_request.
    simpl in Hnot. simpl.
    destruct (eq_str request "wait"); [discriminate|].
    destruct (eq_str request "refresh"); [discriminate|].
    destruct (eq_str request "done"); [discriminate|].
    destruct (eq_str request "unfinished"); [discriminate|].
    destruct (eq_str request "SystemExit"); [discriminate|].
    simpl. repeat split; auto.
  - unfold run_code, mbind. rewrite Hsw. unfold run_code_request.
    destruct (in_strs request ["wait"; "refresh"]) eqn:E1.
    { apply in_strs_inv in E1. destruct E1 as (s & Hin & ->).
      destruct Hin as [<-|[<-|[]]]; simpl; split; intros H;
        try discriminate; contradiction. }
    destruct (in_strs request ["done"; "unfinished"]) eqn:E2.
    { apply in_strs_inv in E2. destruct E2 as (s & Hin & ->).
      unfold _unload_code, mbind, upd_self, get_self, signal_signal. simpl.
      destruct (orig_sigint_handler (self st1));
        destruct Hin as [<-|[<-|[]]]; simpl; split; reflexivity. }
    destruct (in_strs request ["SystemExit"]) eqn:E3.
    { apply in_strs_inv in E3. destruct E3 as (s & Hin & ->).
      destruct Hin as [<-|[]]. simpl. split; reflexivity. }
    simpl in E2, E3. simpl.
    destruct (eq_str request "done"); [discriminate|].
    destruct (eq_str request "unfinished"); [discriminate|].
    destruct (eq_str request "SystemExit"); [discriminate|].
    simpl. split; intros H; [contradiction|discriminate].
Qed.

Lemma unknown_request_raises_witness :
  reachable (loaded bogus_interp) /\
  fst (run_code_switch VNone (loaded bogus_interp)) = Returns (VStr "bogus") /\
  run_code VNone (loaded bogus_interp) =
    (Raises (ValueError (VStr "bogus")),
     snd (run_code_switch VNone (loaded bogus_interp))) /\
  code_greenlet (self (stepped bogus_interp)) <> None.
Proof.
  assert (Hr : reachable (loaded bogus_interp)).
  { apply reach_apply, reachable_start. }
  destruct (unknown_request_raises VNone (loaded bogus_interp)
              (VStr "bogus")
              (snd (run_code_switch VNone (loaded bogus_interp)))
              Hr eq_refl)
    as [Hraise _].
  destruct (Hraise eq_refl) as (Hrun & Hg & _ & _).
  split; [exact Hr|]. split; [reflexivity|]. split; [exact Hrun|].
  change (stepped bogus_interp)
    with (snd (run_code VNone (loaded bogus_interp))).
  rewrite Hrun. exact Hg.
Defined.

(** ** The run function of the code greenlet *)

(** [try_except] goes through host calls and resumptions when the except
    clauses and the code after the [try] make no host call at their head. *)
Lemma calls_try_except : forall (h : exn -> option (code pyval))
    (orelse : pyval -> code pyval),
  (forall e c', h e = Some c' -> calls c' = c') ->
  (forall a, calls (orelse a) = orelse a) ->
  forall c, calls (try_except c h orelse) = try_except (calls c) h orelse.
Proof.
  intros h orelse Hh Ho.
  induction c as [a|e|v k IH|f d k IH|k IH]; simpl; try reflexivity.
  - apply Ho.
  - destruct (h e) as [c'|] eqn:E; [apply (Hh e); exact E|reflexivity].
  - apply IH.
Qed.

Lemma feed_try_except : forall (h : exn -> option (code pyval))
    (orelse : pyval -> code pyval),
  (forall e c', h e = Some c' -> exists v, c' = Ret v) ->
  (forall a, exists v, orelse a = Ret v) ->
  forall rs c, feed (try_except c h orelse) rs = try_except (feed c rs) h orelse.
Proof.
  intros h orelse Hh Ho.
  assert (Hcalls : forall c,
    calls (try_except c h orelse) = try_except (calls c) h orelse).
  { apply calls_try_except.
    - intros e c' E. destruct (Hh e c' E) as [v ->]. reflexivity.
    - intros a. destruct (Ho a) as [v ->]. reflexivity. }
  induction rs as [|r rs IH]; intros c; cbn [feed].
  - apply Hcalls.
  - rewrite Hcalls.
    destruct (calls c) as [a|e|v k|f d k|k]; simpl; try reflexivity.
    + destruct (Ho a) as [v ->]. reflexivity.
    + destruct (h e) as [c'|] eqn:E; [|reflexivity].
      destruct (Hh e c' E) as [v ->]. reflexivity.
    + destruct r; [apply IH|reflexivity].
    + destruct r; [reflexivity|apply IH].
Qed.

(** C7: along any sequence of resumptions, the run function of the code
    greenlet is where one call of the interpreter on the loaded source is:
    where the interpreter raises [SystemExit] (or a subclass) the function
    returns ['SystemExit'] and raises nothing; where the interpreter returns
    a true value it returns ['unfinished'], a false one ['done']; where the
    interpreter switches to the main greenlet it switches with the same
    value; any other exception goes through. *)
Theorem blocking_run_code_result : forall me rs,
  (forall e, feed (interp me (source me)) rs = Raise e ->
             is_SystemExit e = true ->
             feed (_blocking_run_code me) rs = Ret (VStr "SystemExit")) /\
  (forall unfinished, feed (interp me (source me)) rs = Ret unfinished ->
     feed (_blocking_run_code me) rs =
       Ret (VStr (if truthy unfinished then "unfinished" else "done"))) /\
  (forall v k, feed (interp me (source me)) rs = SwitchMain v k ->
     exists k', feed (_blocking_run_code me) rs = SwitchMain v k') /\
  (forall e, feed (interp me (source me)) rs = Raise e ->
             is_SystemExit e = false ->
             feed (_blocking_run_code me) rs = Raise e).
Proof.
  intros me rs. unfold _blocking_run_code. rewrite feed_try_except.
  2: { intros e c'. destruct (is_SystemExit e); intros E; inversion E.
       eexists; reflexivity. }
  2: { intros a. eexists; reflexivity. }
  repeat split.
  - intros e -> He. simpl. rewrite He. reflexivity.
  - intros u ->. simpl. destruct (truthy u); reflexivity.
  - intros v k ->. simpl. eexists. reflexivity.
  - intros e -> He. simpl. rewrite He. reflexivity.
Qed.

Lemma blocking_run_code_result_witness :
  feed (interp (self (loaded printing_interp)) (Some "1 + 1"))
       [Resumed VNone] = Ret (VBool false) /\
  feed (_blocking_run_code (self (loaded printing_interp))) [Resumed VNone] =
    Ret (VStr "done") /\
  feed (_blocking_run_code (self (loaded exiting_interp))) [] =
    Ret (VStr "SystemExit").
Proof.
  split; [reflexivity|]. split.
  - apply (proj1 (proj2 (blocking_run_code_result
                           (self (loaded printing_interp)) [Resumed VNone]))
             (VBool false)).
    reflexivity.
  - apply (proj1 (blocking_run_code_result (self (loaded exiting_interp)) [])
             SystemExit); reflexivity.
Defined.

(** ** FakeOutput *)

(** C9, counterexample: what [write] returns is the value the driver
    resumed the code greenlet with, so two resumptions with different values
    give different results: the value is not discarded. *)
Lemma write_discards_counterexample :
  ~ (forall fo data x y,
       is_SigintHappened x = false -> is_SigintHappened y = false ->
       feed (write fo data) [Resumed x] = feed (write fo data) [Resumed y]).
Proof.
  intros H.
  specialize (H quiet_sink (VStr "2") VNone (VInt 7) eq_refl eq_refl).
  simpl in H. discriminate.
Qed.

(** C9, amended: [write] calls the sink on the data first; when the sink
    returns, it switches to the main greenlet with ['refresh'], once, with
    the data logged and nothing else changed; resumed with
    [SigintHappened] it raises [KeyboardInterrupt], resumed with any other
    value it returns that value to its caller; when the sink raises, the
    exception goes through and there is no switch.  [flush] does nothing and
    [isatty] is [True]. *)
Theorem write_refreshes : forall fo data,
  (exists k, write fo data = CallOut (on_write fo) data k) /\
  (forall r st, on_write fo data = Returns r ->
     run_worker (write fo data) st =
       (Yielded (VStr "refresh") resumed,
        mk_State (self st) (log (Called data) (proc st))) /\
     feed (write fo data) [Resumed VSigintHappened] = Raise KeyboardInterrupt /\
     (forall x, is_SigintHappened x = false ->
                feed (write fo data) [Resumed x] = Ret x)) /\
  (forall e st, on_write fo data = Raises e ->
     run_worker (write fo data) st =
       (Propagated e, mk_State (self st) (log (Called data) (proc st)))) /\
  flush fo = Ret VNone /\
  isatty fo = Ret (VBool true).
Proof.
  intros fo data. split; [|split; [|split; [|split]]].
  - eexists. reflexivity.
  - intros r st Hr. simpl. rewrite Hr. simpl.
    split; [reflexivity|]. split; [reflexivity|].
    intros x Hx. unfold resumed. rewrite Hx. reflexivity.
  - intros e st He. simpl. rewrite He. reflexivity.
  - reflexivity.
  - reflexivity.
Qed.

Lemma write_refreshes_witness :
  on_write quiet_sink (VStr "2") = Returns VNone /\
  fst (run_worker (write quiet_sink (VStr "2")) (start printing_interp)) =
    Yielded (VStr "refresh") resumed /\
  feed (write quiet_sink (VStr "2")) [Resumed (VInt 7)] = Ret (VInt 7).
Proof.
  destruct (proj1 (proj2 (write_refreshes quiet_sink (VStr "2")))
              VNone (start printing_interp) eq_refl)
    as (Hrun & _ & Hret).
  split; [reflexivity|]. split.
  - rewrite Hrun. reflexivity.
  - apply Hret. reflexivity.
Defined.

(** ** The greenlet between two calls *)

(** A run of code of [_blocking_run_code] ends in one of three ways: a
    switch that leaves such code behind, one of the three final values, or
    an exception that is no [SystemExit]. *)
Lemma run_worker_entry : forall c0 st sw st',
  run_worker (_blocking_run_code (__init__ (fun _ => c0))) st = (sw, st') ->
  match sw with
  | Yielded _ k => forall x, entry_code (k x)
  | Finished v => final_request v
  | Propagated e => is_SystemExit e = false
  end.
Proof.
  unfold _blocking_run_code. simpl.
  induction c0 as [a|e|v k IH|f d k IH|k IH]; intros st sw st' H; simpl in H.
  - inversion H; subst. unfold final_request.
    destruct (truthy a); auto.
  - destruct (is_SystemExit e) eqn:E; simpl in H; inversion H; subst.
    + unfold final_request. auto.
    + exact E.
  - inversion H; subst. intros x. exists (k x). reflexivity.
  - eapply IH. exact H.
  - destruct (deliver_sigint st) as [o st1]. eapply IH. exact H.
Qed.

(** The first half of [run_code] in a consistent, settled state: the
    assertion fails and nothing changes, or the greenlet comes back
    suspended on code of its run function, or dead with a final value, or
    dead with an exception that is no [SystemExit]. *)
Lemma run_code_switch_outcome : forall for_code st r st1,
  consistent st -> settled st ->
  run_code_switch for_code st = (r, st1) ->
  (may_switch st = false /\ r = Raises AssertionError /\ st1 = st) \/
  (may_switch st = true /\
   exists g1, code_greenlet (self st1) = Some g1 /\
     match r, gstate_of g1 with
     | Returns _, GSuspended k => forall x, entry_code (k x)
     | Returns v, GDead => final_request v
     | Raises e, GDead => is_SystemExit e = false
     | _, _ => False
     end).
Proof.
  intros for_code st r st1 Hc Hs H.
  destruct (run_code_switch_spec _ _ _ _ H)
    as [Hfail|(Hm & _)]; [left; exact Hfail|].
  right. split; [exact Hm|].
  rewrite run_code_switch_unfold, Hm in H.
  assert (Hbody : exists g c0,
    code_greenlet (self (before_switch st)) = Some g /\
    match gstate_of g with
    | GNew run => run
    | GSuspended k =>
        k match switch_arg for_code st with Some v => v | None => VTuple0 end
    | GDead =>
        Ret match switch_arg for_code st with Some v => v | None => VTuple0 end
    end = _blocking_run_code (__init__ (fun _ => c0))).
  { unfold before_switch, may_switch in *.
    destruct (code_greenlet (self st)) as [g|] eqn:Hg.
    - destruct (waiting_suspended st Hs Hm) as (g' & k & Hg' & Hk).
      assert (g' = g) by congruence. subst g'.
      pose proof (greenlet_rests st Hs g Hg) as Hrest.
      unfold greenlet_at_rest in Hrest. rewrite Hk in Hrest.
      destruct (Hrest match switch_arg for_code st with
                      | Some v => v | None => VTuple0 end) as [c0 Hc0].
      exists g, c0. simpl. rewrite Hg, Hk. split; [reflexivity|exact Hc0].
    - eexists. exists (interp (self st) (source (self st))). simpl.
      split; reflexivity. }
  destruct Hbody as (g & c0 & Hg & Hbody).
  unfold greenlet_switch in H. rewrite Hg, Hbody in H.
  match type of H with
  | context [run_worker ?c ?s] => destruct (run_worker c s) as [sw st2] eqn:Hrun
  end.
  apply run_worker_entry in Hrun.
  destruct sw; inversion H; subst; clear H; simpl; eexists;
    (split; [reflexivity|]); simpl; exact Hrun.
Qed.

Lemma final_request_cases : forall v,
  final_request v ->
  in_strs v ["wait"; "refresh"] = false /\
  (in_strs v ["done"; "unfinished"] = true \/ in_strs v ["SystemExit"] = true).
Proof.
  intros v [->|[->| ->]]; split; auto.
Qed.

(** Every call of [run_code] made in a consistent, settled state ends in
    one of the six ways of [run_code_case]. *)
Lemma run_code_cases : forall for_code st r st',
  consistent st -> settled st ->
  run_code for_code st = (r, st') ->
  run_code_case st r st'.
Proof.
  intros for_code st r st' Hc Hs H. unfold run_code, mbind in H.
  destruct (run_code_switch for_code st) as [r1 st1] eqn:Hsw.
  destruct (run_code_switch_outcome _ _ _ _ Hc Hs Hsw)
    as [(Hm & -> & ->)|(Hm & g1 & Hg1 & Hshape)].
  { inversion H; subst. apply case_refused. exact Hm. }
  destruct (run_code_switch_consistent _ _ _ _ Hc Hsw) as [Hc1 Hmay].
  destruct (Hmay Hm) as (_ & Hsrc1 & Hw1).
  destruct (run_code_switch_spec _ _ _ _ Hsw)
    as [(Hm' & _)|(_ & g & gs & Hg & Hself & Hslot & _)]; [congruence|].
  assert (Hkept : kept st st1).
  { assert (Ho : orig_sigint_handler (self st1) = prior_handler st /\
                 source (self st1) = source (self st)).
    { rewrite Hself. unfold before_switch, prior_handler.
      destruct (code_greenlet (self st)); simpl; split; reflexivity. }
    destruct Ho as [Ho Hsrc]. unfold kept. repeat split; congruence. }
  destruct r1 as [request|e].
  - unfold run_code_request in H.
    destruct (in_strs request ["wait"; "refresh"]) eqn:E1.
    { assert (Hk : exists k, gstate_of g1 = GSuspended k).
      { destruct (gstate_of g1) as [run|k|]; [contradiction|eauto|].
        apply final_request_cases in Hshape. destruct Hshape; congruence. }
      destruct Hk as [k Hk].
      assert (Hst' : r = Returns (VBool false) /\
                     self st' = set_code_is_waiting true (self st1) /\
                     sigint_slot (proc st') = sigint_slot (proc st1)).
      { unfold mbind, upd_self, stuff_a_refresh_request, upd_proc, ret in H.
        destruct (eq_str request "refresh"); simpl in H; inversion H; subst;
          auto. }
      destruct Hst' as (-> & Hself' & Hslot').
      destruct Hkept as (K1 & K2 & K3 & K4).
      apply (case_suspended st st' g1 k).
      - rewrite Hself'. exact Hg1.
      - exact Hk.
      - unfold greenlet_at_rest. rewrite Hk. rewrite Hk in Hshape. exact Hshape.
      - rewrite Hself'. reflexivity.
      - unfold kept. rewrite Hself', Hslot'. simpl. auto. }
    destruct (in_strs request ["done"; "unfinished"]) eqn:E2.
    { destruct Hkept as (K1 & K2 & K3 & K4).
      destruct (prior_handler_some st Hc) as [h Hh].
      rewrite Hh in K3.
      unfold _unload_code, mbind, upd_self, get_self, signal_signal in H.
      simpl in H. rewrite K3 in H. simpl in H. inversion H; subst.
      apply in_strs_inv in E2. destruct E2 as (s & Hin & ->).
      apply case_finished.
      - destruct Hin as [<-|[<-|[]]]; auto.
      - unfold unloaded. simpl. auto.
      - reflexivity.
      - simpl. exact Hh. }
    destruct (in_strs request ["SystemExit"]) eqn:E3.
    { destruct Hkept as (K1 & K2 & K3 & K4).
      unfold _unload_code, mbind, upd_self, raise in H. simpl in H.
      inversion H; subst. apply case_exited.
      - unfold unloaded. simpl. auto.
      - simpl. exact K3.
      - simpl. exact K4. }
    unfold raise in H. inversion H; subst.
    assert (Hnot : in_strs request
              ["wait"; "refresh"; "done"; "unfinished"; "SystemExit"] = false).
    { simpl in E1, E2, E3. simpl.
      destruct (eq_str request "wait"); [discriminate|].
      destruct (eq_str request "refresh"); [discriminate|].
      destruct (eq_str request "done"); [discriminate|].
      destruct (eq_str request "unfinished"); [discriminate|].
      destruct (eq_str request "SystemExit"); [discriminate|reflexivity]. }
    destruct (gstate_of g1) as [run|k|] eqn:Hk; [contradiction| |].
    + apply (case_defect st request st' g1 k); auto.
      unfold greenlet_at_rest. rewrite Hk. exact Hshape.
    + apply final_request_cases in Hshape.
      destruct Hshape as [_ [F|F]]; congruence.
  - inversion H; subst.
    destruct (gstate_of g1) as [run|k|] eqn:Hk; try contradiction.
    apply (case_raised st e st' g1); auto.
Qed.

Lemma init_settled : forall i p, settled (mk_State (__init__ i) p).
Proof.
  intros i p. constructor; simpl; intros; congruence.
Qed.

Lemma load_code_settled : forall src st,
  consistent st -> settled st -> settled (snd (load_code src st)).
Proof.
  intros src st Hc Hs. unfold load_code, mbind, get_self, assert_. simpl.
  destruct (source (self st)) eqn:Hsrc; simpl; [exact Hs|].
  pose proof (no_greenlet st Hc (no_source st Hc Hsrc)) as Hw.
  constructor; simpl; congruence.
Qed.

Lemma deliver_sigint_settled : forall st,
  settled st -> settled (snd (deliver_sigint st)).
Proof.
  intros st Hs. destruct (deliver_sigint st) as [r st'] eqn:H. simpl.
  apply deliver_sigint_frame in H.
  destruct H as [_ _ Hg Hw _ Hslot _ _ _]. destruct Hs as [H1 H2 H3].
  constructor; rewrite ?Hg, ?Hw, ?Hslot; assumption.
Qed.

Lemma run_code_settled : forall for_code st,
  consistent st -> settled st -> settled (snd (run_code for_code st)).
Proof.
  intros for_code st Hc Hs.
  destruct (run_code for_code st) as [r st'] eqn:H. simpl.
  apply (run_code_cases _ _ _ _ Hc Hs) in H.
  destruct H as [Hm
                |st' g k Hg Hk Hrest Hw (_ & _ & _ & Hslot)
                |request st' _ (_ & Hg & Hw) _ _
                |st' (_ & Hg & Hw) _ _
                |request st' g k _ Hg Hk Hrest Hw (_ & _ & _ & Hslot)
                |e st' g _ Hg Hk Hw (_ & _ & _ & Hslot)].
  - exact Hs.
  - constructor; intros; [exact Hslot|eauto|congruence].
  - constructor; intros; congruence.
  - constructor; intros; congruence.
  - constructor; intros; [exact Hslot|congruence|congruence].
  - constructor; intros; [exact Hslot|congruence|].
    assert (g0 = g) by congruence. subst g0.
    unfold greenlet_at_rest. rewrite Hk. exact I.
Qed.

(** Every state the driver can reach is settled. *)
Lemma reachable_settled : forall st, reachable st -> settled st.
Proof.
  induction 1 as [i p Hp|o st Hr IH].
  - apply init_settled.
  - pose proof (reachable_consistent st Hr) as Hc.
    destruct o; simpl.
    + apply load_code_settled; assumption.
    + apply run_code_settled; assumption.
    + apply deliver_sigint_settled; assumption.
Qed.

(** ** What holds between two calls *)

(** X1: in every state the driver can reach, [code_is_waiting] is up only
    over a code greenlet that is suspended at a switch, with a source
    loaded, the runner's handler in the SIGINT slot and the handler of
    before saved; a greenlet in place has always been started. *)
Theorem waiting_means_suspended : forall st,
  reachable st ->
  (code_is_waiting (self st) = true ->
   exists g k h,
     code_greenlet (self st) = Some g /\
     gstate_of g = GSuspended k /\
     source (self st) <> None /\
     sigint_slot (proc st) = RunnerHandler /\
     orig_sigint_handler (self st) = Some h) /\
  (forall g run, code_greenlet (self st) = Some g ->
                 gstate_of g <> GNew run).
Proof.
  intros st Hr.
  pose proof (reachable_consistent st Hr) as [Ha Hb Hc _].
  pose proof (reachable_settled st Hr) as [H1 H2 H3].
  split.
  - intros Hw. destruct (H2 Hw) as (g & k & Hg & Hk).
    assert (Hsome : code_greenlet (self st) <> None) by congruence.
    destruct (orig_sigint_handler (self st)) as [h|] eqn:Ho;
      [|exfalso; apply (Hc Hsome); reflexivity].
    exists g, k, h. repeat split; auto.
  - intros g run Hg Hnew. apply H3 in Hg.
    unfold greenlet_at_rest in Hg. rewrite Hnew in Hg. exact Hg.
Qed.

Lemma waiting_means_suspended_witness :
  reachable (stepped printing_interp) /\
  code_is_waiting (self (stepped printing_interp)) = true /\
  sigint_slot (proc (stepped printing_interp)) = RunnerHandler.
Proof.
  assert (Hr : reachable (stepped printing_interp)).
  { apply reach_apply, reach_apply, reachable_start. }
  split; [exact Hr|]. split; [reflexivity|].
  destruct (proj1 (waiting_means_suspended (stepped printing_interp) Hr)
              eq_refl) as (g & k & h & _ & _ & _ & Hslot & _).
  exact Hslot.
Defined.

(** X2: in every state the driver can reach in which a code greenlet is in
    place, a SIGINT that hits the driver raises nothing and sets
    [sigint_happened], changing nothing else; a second one changes nothing
    more. *)
Theorem sigint_at_driver_is_recorded : forall st,
  reachable st ->
  code_greenlet (self st) <> None ->
  deliver_sigint st =
    (Returns tt, mk_State (set_sigint_happened true (self st)) (proc st)) /\
  apply Signal (apply Signal st) = apply Signal st.
Proof.
  intros st Hr Hg.
  pose proof (reachable_consistent st Hr) as [_ _ _ Hcur].
  pose proof (reachable_settled st Hr) as [Hslot _ _].
  specialize (Hslot Hg).
  assert (Hd : forall me,
    deliver_sigint (mk_State me (proc st)) =
      (Returns tt, mk_State (set_sigint_happened true me) (proc st))).
  { intros me. unfold deliver_sigint, mbind, get_proc. simpl. rewrite Hslot.
    unfold sigint_handler, mbind, get_self, get_proc. simpl.
    rewrite Hcur. reflexivity. }
  assert (Hd0 : deliver_sigint st =
    (Returns tt, mk_State (set_sigint_happened true (self st)) (proc st))).
  { destruct st as [me p]. apply Hd. }
  split; [exact Hd0|].
  simpl. rewrite Hd0. simpl. rewrite Hd. reflexivity.
Qed.

Lemma sigint_at_driver_is_recorded_witness :
  reachable (stepped waiting_interp) /\
  fst (deliver_sigint (stepped waiting_interp)) = Returns tt /\
  sigint_happened (self (apply Signal (stepped waiting_interp))) = true.
Proof.
  assert (Hr : reachable (stepped waiting_interp)).
  { apply reach_apply, reach_apply, reachable_start. }
  assert (Hg : code_greenlet (self (stepped waiting_interp)) <> None).
  { simpl. discriminate. }
  destruct (sigint_at_driver_is_recorded (stepped waiting_interp) Hr Hg)
    as [Hd _].
  split; [exact Hr|]. simpl apply. rewrite Hd. split; reflexivity.
Defined.

(** X3: in every state the driver can reach, what [run_code] returns is
    [False], ['done'] or ['unfinished']: [False] with the greenlet suspended
    and waiting, a true value with the runner unloaded and the handler of
    before back in the SIGINT slot. *)
Theorem run_code_returns : forall for_code st r st',
  reachable st ->
  run_code for_code st = (Returns r, st') ->
  (r = VBool false /\
   code_is_waiting (self st') = true /\
   source (self st') = source (self st) /\
   exists g k, code_greenlet (self st') = Some g /\
               gstate_of g = GSuspended k) \/
  ((r = VStr "done" \/ r = VStr "unfinished") /\
   truthy r = true /\
   unloaded st' /\
   prior_handler st = Some (sigint_slot (proc st'))).
Proof.
  intros for_code st r st' Hr H.
  apply (run_code_cases _ _ _ _ (reachable_consistent st Hr)
           (reachable_settled st Hr)) in H.
  inversion H; subst.
  - left.
    match goal with Hk : kept _ _ |- _ => destruct Hk as (Hsrc & _) end.
    repeat split; eauto.
  - right.
    match goal with
    | Hq : _ \/ _, Hu : unloaded _ |- _ =>
        split; [exact Hq|]; split; [destruct Hq as [->| ->]; reflexivity|];
        split; [exact Hu|assumption]
    end.
Qed.

Lemma run_code_returns_witness :
  reachable (loaded printing_interp) /\
  run_code VNone (loaded printing_interp) =
    (Returns (VBool false), stepped printing_interp) /\
  code_is_waiting (self (stepped printing_interp)) = true.
Proof.
  assert (Hr : reachable (loaded printing_interp)).
  { apply reach_apply, reachable_start. }
  split; [exact Hr|]. split; [reflexivity|].
  destruct (run_code_returns VNone (loaded printing_interp) (VBool false)
              (stepped printing_interp) Hr eq_refl)
    as [(_ & Hw & _)|([Hd|Hu] & _)].
  - exact Hw.
  - discriminate Hd.
  - discriminate Hu.
Defined.

(** X4: in every state the driver can reach, the only exception of class
    [SystemExit] that [run_code] raises is [SystemExitFromCodeThread], and
    it raises it with the runner unloaded: a [SystemExit] of the running
    code never comes out of the greenlet as it is. *)
Theorem system_exit_is_translated : forall for_code st e st',
  reachable st ->
  run_code for_code st = (Raises e, st') ->
  is_SystemExit e = true ->
  e = SystemExitFromCodeThread /\ unloaded st'.
Proof.
  intros for_code st e st' Hr H He.
  apply (run_code_cases _ _ _ _ (reachable_consistent st Hr)
           (reachable_settled st Hr)) in H.
  inversion H; subst; try discriminate.
  - split; [reflexivity|assumption].
  - congruence.
Qed.

Lemma system_exit_is_translated_witness :
  reachable (loaded exiting_interp) /\
  run_code VNone (loaded exiting_interp) =
    (Raises SystemExitFromCodeThread, stepped exiting_interp) /\
  source (self (stepped exiting_interp)) = None.
Proof.
  assert (Hr : reachable (loaded exiting_interp)).
  { apply reach_apply, reachable_start. }
  split; [exact Hr|]. split; [reflexivity|].
  destruct (system_exit_is_translated VNone (loaded exiting_interp)
              SystemExitFromCodeThread (stepped exiting_interp)
              Hr eq_refl eq_refl) as [_ (Hsrc & _)].
  exact Hsrc.
Defined.

(** ** After an error *)

(** X5: in every state the driver can reach, a call of [run_code] that
    raises anything but [SystemExitFromCodeThread] either failed its
    assertion and changed nothing, or leaves the runner with its source,
    its greenlet and nothing waiting. *)
Theorem error_leaves_stuck : forall for_code st e st',
  reachable st ->
  run_code for_code st = (Raises e, st') ->
  e <> SystemExitFromCodeThread ->
  (e = AssertionError /\ st' = st) \/ stuck st'.
Proof.
  intros for_code st e st' Hr H He.
  apply (run_code_cases _ _ _ _ (reachable_consistent st Hr)
           (reachable_settled st Hr)) in H.
  inversion H; subst.
  - left. split; reflexivity.
  - congruence.
  - right.
    match goal with Hk : kept _ _ |- _ => destruct Hk as (K1 & K2 & _) end.
    unfold stuck. repeat split; congruence.
  - right.
    match goal with Hk : kept _ _ |- _ => destruct Hk as (K1 & K2 & _) end.
    unfold stuck. repeat split; congruence.
Qed.

Lemma error_leaves_stuck_witness :
  reachable (loaded bogus_interp) /\
  run_code VNone (loaded bogus_interp) =
    (Raises (ValueError (VStr "bogus")), stepped bogus_interp) /\
  stuck (stepped bogus_interp).
Proof.
  assert (Hr : reachable (loaded bogus_interp)).
  { apply reach_apply, reachable_start. }
  split; [exact Hr|]. split; [reflexivity|].
  destruct (error_leaves_stuck VNone (loaded bogus_interp)
              (ValueError (VStr "bogus")) (stepped bogus_interp)
              Hr eq_refl) as [[Hd _]|Hs].
  - discriminate.
  - discriminate Hd.
  - exact Hs.
Defined.

Lemma stuck_refuses : forall st,
  stuck st ->
  (forall for_code, run_code for_code st = (Raises AssertionError, st)) /\
  (forall src, load_code src st = (Raises AssertionError, st)).
Proof.
  intros st (Hsrc & Hg & Hw). split.
  - intros v. unfold run_code, mbind. rewrite run_code_switch_unfold.
    unfold may_switch.
    destruct (code_greenlet (self st)) eqn:E; [|congruence].
    rewrite Hw. reflexivity.
  - intros src. unfold load_code, mbind, get_self, assert_.
    destruct (source (self st)) eqn:E; [reflexivity|congruence].
Qed.

Lemma stuck_apply : forall o st, stuck st -> stuck (apply o st).
Proof.
  intros o st Hs. destruct (stuck_refuses st Hs) as [Hrun Hload].
  destruct o; simpl.
  - rewrite Hload. exact Hs.
  - rewrite Hrun. exact Hs.
  - destruct Hs as (Hsrc & Hg & Hw).
    destruct (deliver_sigint st) as [r st'] eqn:H. simpl.
    apply deliver_sigint_frame in H.
    destruct H as [_ Hs' Hg' Hw' _ _ _ _ _].
    unfold stuck. rewrite Hs', Hg', Hw'. auto.
Qed.

(** X6: a runner that has a source and a greenlet and nothing waiting stays
    so whatever the driver calls; from then on every [run_code] and every
    [load_code] fails its assertion and changes nothing. *)
Theorem stuck_for_good : forall ops st,
  stuck st ->
  stuck (drive ops st) /\
  (forall for_code,
     run_code for_code (drive ops st) =
       (Raises AssertionError, drive ops st)) /\
  (forall src,
     load_code src (drive ops st) = (Raises AssertionError, drive ops st)).
Proof.
  induction ops as [|o ops IH]; intros st Hs.
  - simpl. split; [exact Hs|]. apply stuck_refuses. exact Hs.
  - simpl. apply IH. apply stuck_apply. exact Hs.
Qed.

Lemma stuck_for_good_witness :
  stuck (stepped bogus_interp) /\
  run_code (VStr "again")
    (drive [Signal; Load "2 + 2"] (stepped bogus_interp)) =
    (Raises AssertionError,
     drive [Signal; Load "2 + 2"] (stepped bogus_interp)).
Proof.
  assert (Hs : stuck (stepped bogus_interp)).
  { unfold stuck. simpl. repeat split; discriminate. }
  split; [exact Hs|].
  apply (stuck_for_good [Signal; Load "2 + 2"] (stepped bogus_interp) Hs).
Defined.

(** ** The SIGINT slot over a whole run *)

Lemma prior_handler_apply : forall o st,
  reachable st ->
  exits o st = false ->
  prior_handler (apply o st) = prior_handler st.
Proof.
  intros o st Hr Hex.
  pose proof (reachable_consistent st Hr) as Hc.
  destruct o as [src|for_code|]; simpl.
  - unfold load_code, mbind, get_self, assert_.
    destruct (source (self st)) eqn:Hsrc; simpl; [reflexivity|].
    unfold prior_handler. simpl.
    rewrite (no_source st Hc Hsrc). reflexivity.
  - simpl in Hex.
    destruct (run_code for_code st) as [r st'] eqn:H. simpl in *.
    apply (run_code_cases _ _ _ _ Hc (reachable_settled st Hr)) in H.
    inversion H; subst; try reflexivity; try discriminate;
      try match goal with
          | Hk : kept _ _, Hg : code_greenlet _ = Some _ |- _ =>
              destruct Hk as (_ & _ & K3 & _);
              unfold prior_handler at 1; rewrite Hg; exact K3
          end.
    match goal with
    | Hu : unloaded _, Hp : prior_handler _ = Some _ |- _ =>
        destruct Hu as (_ & Hg & _);
        unfold prior_handler at 1; rewrite Hg; symmetry; exact Hp
    end.
  - destruct (deliver_sigint st) as [r st'] eqn:H. simpl.
    apply deliver_sigint_frame in H.
    destruct H as [_ _ Hg _ Ho Hslot _ _ _].
    unfold prior_handler. rewrite Hg, Ho, Hslot. reflexivity.
Qed.

Lemma reachable_drive : forall ops st,
  reachable st -> reachable (drive ops st).
Proof.
  induction ops as [|o ops IH]; intros st Hr; simpl.
  - exact Hr.
  - apply IH. apply reach_apply. exact Hr.
Qed.

(** X7: start from a state the driver can reach with no code greenlet, and
    make any calls of which none ends in [SystemExitFromCodeThread]; then
    whenever there is again no code greenlet, the SIGINT slot holds the
    handler it held at the start, however many steps, signals and
    statements lie between. *)
Theorem slot_restored_after_run : forall ops st,
  reachable st ->
  code_greenlet (self st) = None ->
  no_exit ops st = true ->
  code_greenlet (self (drive ops st)) = None ->
  sigint_slot (proc (drive ops st)) = sigint_slot (proc st).
Proof.
  intros ops st Hr Hg Hno Hg'.
  assert (Hprior : prior_handler (drive ops st) = prior_handler st).
  { clear Hg Hg'. revert st Hr Hno.
    induction ops as [|o ops IH]; intros st Hr Hno; simpl in *.
    - reflexivity.
    - apply andb_prop in Hno. destruct Hno as [Hex Hno].
      apply negb_true_iff in Hex.
      rewrite (IH (apply o st) (reach_apply o st Hr) Hno).
      apply prior_handler_apply; assumption. }
  unfold prior_handler in Hprior. rewrite Hg, Hg' in Hprior.
  congruence.
Qed.

Lemma slot_restored_after_run_witness :
  reachable (start printing_interp) /\
  no_exit [Load "1 + 1"; Run VNone; Run (VInt 3); Load "2"; Run VNone;
           Run VNone] (start printing_interp) = true /\
  sigint_slot
    (proc (drive [Load "1 + 1"; Run VNone; Run (VInt 3); Load "2";
                  Run VNone; Run VNone] (start printing_interp))) =
    DefaultIntHandler.
Proof.
  split; [apply reachable_start|]. split; [reflexivity|].
  apply (slot_restored_after_run
           [Load "1 + 1"; Run VNone; Run (VInt 3); Load "2";
            Run VNone; Run VNone] (start printing_interp));
    [apply reachable_start|reflexivity|reflexivity|reflexivity].
Defined.

(** ** The pending interrupt *)

Lemma run_code_request_flag : forall request st,
  sigint_happened (self (snd (run_code_request request st))) =
  sigint_happened (self st).
Proof.
  intros request st. unfold run_code_request.
  destruct (in_strs request ["wait"; "refresh"]).
  { unfold mbind, upd_self, stuff_a_refresh_request, upd_proc, ret.
    destruct (eq_str request "refresh"); reflexivity. }
  destruct (in_strs request ["done"; "unfinished"]).
  { unfold _unload_code, mbind, upd_self, get_self, signal_signal. simpl.
    destruct (orig_sigint_handler (self st)); reflexivity. }
  destruct (in_strs request ["SystemExit"]); reflexivity.
Qed.

(** X8: a recorded interrupt is never dropped: when [sigint_happened] is up
    before a call of the driver and down after it, the call was a
    [run_code] that resumed a waiting code greenlet, and it handed over
    [SigintHappened]. *)
Theorem interrupt_never_lost : forall o st,
  sigint_happened (self st) = true ->
  sigint_happened (self (apply o st)) = false ->
  exists for_code g,
    o = Run for_code /\
    code_greenlet (self st) = Some g /\
    code_is_waiting (self st) = true /\
    switch_arg for_code st = Some VSigintHappened.
Proof.
  intros o st Hf Hf'. destruct o as [src|for_code|]; simpl in Hf'.
  - exfalso. revert Hf'. unfold load_code, mbind, get_self, assert_.
    destruct (source (self st)); simpl; congruence.
  - destruct (code_greenlet (self st)) as [g|] eqn:Hg.
    + destruct (code_is_waiting (self st)) eqn:Hw.
      * exists for_code, g. unfold switch_arg. rewrite Hg, Hf. auto.
      * exfalso. revert Hf'. unfold run_code, mbind.
        rewrite run_code_switch_unfold. unfold may_switch.
        rewrite Hg, Hw. simpl. congruence.
    + exfalso. revert Hf'. unfold run_code, mbind.
      destruct (run_code_switch for_code st) as [r st1] eqn:Hsw.
      assert (Hf1 : sigint_happened (self st1) = true).
      { destruct (run_code_switch_spec _ _ _ _ Hsw)
          as [(_ & _ & ->)|(_ & g1 & gs & _ & Hself & _)]; [exact Hf|].
        rewrite Hself. unfold before_switch. rewrite Hg. simpl. exact Hf. }
      destruct r as [request|e]; simpl; [|congruence].
      rewrite run_code_request_flag. congruence.
  - exfalso. revert Hf'.
    unfold deliver_sigint, sigint_handler, mbind, get_self, get_proc.
    destruct (sigint_slot (proc st)); simpl; try congruence.
    destruct (current_is _ _); simpl; congruence.
Qed.

Lemma interrupt_never_lost_witness :
  sigint_happened (self (apply Signal (stepped waiting_interp))) = true /\
  sigint_happened
    (self (apply (Run (VStr "typed"))
             (apply Signal (stepped waiting_interp)))) = false /\
  switch_arg (VStr "typed") (apply Signal (stepped waiting_interp)) =
    Some VSigintHappened.
Proof.
  split; [reflexivity|]. split; [reflexivity|].
  destruct (interrupt_never_lost (Run (VStr "typed"))
              (apply Signal (stepped waiting_interp)) eq_refl eq_refl)
    as (v & g & Ho & _ & _ & Harg).
  inversion Ho; subst. exact Harg.
Defined.

(** ** running, between two calls *)

(** X9: in every state the driver can reach, [running] is true only over a
    non-empty source and a suspended code greenlet; it is true whenever the
    code waits on a non-empty source; and it is false when the runner is
    unloaded and right after a [load_code] that went through. *)
Theorem running_between_calls : forall st,
  reachable st ->
  (running_truthy (self st) = true ->
   exists s g k, source (self st) = Some s /\ s <> "" /\
                 code_greenlet (self st) = Some g /\
                 gstate_of g = GSuspended k) /\
  (forall s, code_is_waiting (self st) = true ->
             source (self st) = Some s -> s <> "" ->
             running_truthy (self st) = true) /\
  (source (self st) = None -> running_truthy (self st) = false) /\
  (forall src st', load_code src st = (Returns tt, st') ->
                   running_truthy (self st') = false).
Proof.
  intros st Hr.
  pose proof (reachable_consistent st Hr) as Hc.
  pose proof (reachable_settled st Hr) as Hs.
  split; [|split; [|split]].
  - intros Ht. apply running_truthy_iff in Ht.
    destruct Ht as (s & g & Hsrc & Hne & Hg & Ha).
    unfold greenlet_active in Ha.
    destruct (gstate_of g) as [run|k|] eqn:Hk; try discriminate.
    exists s, g, k. auto.
  - intros s Hw Hsrc Hne. apply running_truthy_iff.
    destruct (waiting_suspended st Hs Hw) as (g & k & Hg & Hk).
    exists s, g. repeat split; auto.
    unfold greenlet_active. rewrite Hk. reflexivity.
  - intros Hsrc. unfold running_truthy, running. rewrite Hsrc. reflexivity.
  - intros src st' H.
    unfold load_code, mbind, get_self, assert_, upd_self in H.
    destruct (source (self st)); simpl in H; [discriminate|].
    inversion H; subst. unfold running_truthy, running. simpl.
    destruct (negb (src =? "")%string) eqn:E; simpl; [reflexivity|exact E].
Qed.

Lemma running_between_calls_witness :
  reachable (stepped waiting_interp) /\
  code_is_waiting (self (stepped waiting_interp)) = true /\
  running_truthy (self (stepped waiting_interp)) = true.
Proof.
  assert (Hr : reachable (stepped waiting_interp)).
  { apply reach_apply, reach_apply, reachable_start. }
  split; [exact Hr|]. split; [reflexivity|].
  apply (proj1 (proj2 (running_between_calls (stepped waiting_interp) Hr))
           "1 + 1"); [reflexivity|reflexivity|discriminate].
Defined.

(** ** A statement that neither writes nor reads *)

(** X10: from a state the driver can reach with nothing loaded, loading a
    statement on which the interpreter just returns and running it once
    gives ['unfinished'] or ['done'] at the first call, and leaves the
    runner and the process as they were: only the count of greenlets made
    has gone up, and no handler stays saved. *)
Theorem plain_statement_in_one_step : forall src for_code unfinished st,
  reachable st ->
  source (self st) = None ->
  interp (self st) (Some src) = Ret unfinished ->
  run_code for_code (snd (load_code src st)) =
    (Returns (VStr (if truthy unfinished then "unfinished" else "done")),
     mk_State (set_orig_sigint_handler None (self st))
              (set_next_gid (S (next_gid (proc st))) (proc st))).
Proof.
  intros src for_code u st Hr Hsrc Hi.
  pose proof (reachable_consistent st Hr) as [Ha Hb _ Hcur].
  specialize (Ha Hsrc). specialize (Hb Ha).
  destruct st as [[i s g w f o] [slot cur n tr]]. simpl in *. subst.
  unfold load_code, run_code, run_code_switch, mbind, get_self, assert_,
    upd_self, greenlet_greenlet, get_proc, upd_proc, signal_getsignal,
    signal_signal, ret, greenlet_switch, _blocking_run_code. simpl.
  rewrite Hi. simpl.
  destruct (truthy u); reflexivity.
Qed.

Lemma plain_statement_in_one_step_witness :
  reachable (start (fun _ => Ret (VInt 2))) /\
  fst (run_code VNone
         (snd (load_code "1 + 1" (start (fun _ => Ret (VInt 2)))))) =
    Returns (VStr "unfinished").
Proof.
  split; [apply reachable_start|].
  rewrite (plain_statement_in_one_step "1 + 1" VNone (VInt 2)
             (start (fun _ => Ret (VInt 2)))
             (reachable_start _) eq_refl eq_refl).
  reflexivity.
Defined.

(** ** writelines *)

(** The first line of [writelines]: the sink is called on it and, when the
    sink returns, the greenlet switches out with ['refresh'] and goes on
    with the other lines once it is resumed. *)
Lemma writelines_cons : forall fo d l r rs,
  on_write fo d = Returns r ->
  feed (writelines fo (d :: l)) [] =
    SwitchMain (VStr "refresh")
      (fun x => bind (resumed x) (fun _ => writelines fo l)) /\
  called (writelines fo (d :: l)) [] = [d] /\
  (forall x,
     feed (writelines fo (d :: l)) (Resumed x :: rs) =
       feed (bind (resumed x) (fun _ => writelines fo l)) rs /\
     called (writelines fo (d :: l)) (Resumed x :: rs) =
       d :: called (bind (resumed x) (fun _ => writelines fo l)) rs).
Proof.
  intros fo d l r rs Hd.
  assert (Hcalls : calls (writelines fo (d :: l)) =
    SwitchMain (VStr "refresh")
      (fun x => bind (resumed x) (fun _ => writelines fo l))).
  { simpl. rewrite Hd. reflexivity. }
  assert (Hhead : called_head (writelines fo (d :: l)) = [d]).
  { simpl. rewrite Hd. reflexivity. }
  split; [exact Hcalls|]. split.
  - cbn [called]. rewrite Hhead. reflexivity.
  - intros x. split.
    + cbn [feed]. rewrite Hcalls. reflexivity.
    + cbn [called]. rewrite Hhead, Hcalls. reflexivity.
Qed.

(** X11: [writelines] over a sink that returns on every line: resumed with
    values other than [SigintHappened], it calls the sink on the lines in
    order and switches out with ['refresh'] once after each of them; after
    as many resumptions as there are lines it returns [None]; with fewer it
    is suspended, having written one line more than it was resumed; and a
    resumption with [SigintHappened] raises [KeyboardInterrupt] with the
    lines after it never written. *)
Theorem writelines_one_switch_per_line : forall fo l xs,
  (forall d, In d l -> exists r, on_write fo d = Returns r) ->
  (forall x, In x xs -> is_SigintHappened x = false) ->
  (length xs = length l ->
   feed (writelines fo l) (map Resumed xs) = Ret VNone /\
   called (writelines fo l) (map Resumed xs) = l) /\
  (length xs < length l ->
   (exists k, feed (writelines fo l) (map Resumed xs) =
                SwitchMain (VStr "refresh") k) /\
   called (writelines fo l) (map Resumed xs) = firstn (S (length xs)) l /\
   feed (writelines fo l) (map Resumed xs ++ [Resumed VSigintHappened]) =
     Raise KeyboardInterrupt /\
   called (writelines fo l) (map Resumed xs ++ [Resumed VSigintHappened]) =
     firstn (S (length xs)) l).
Proof.
  intros fo l. induction l as [|d l IH]; intros xs Hsink Hxs.
  - split.
    + intros Hlen. destruct xs; [|discriminate]. split; reflexivity.
    + simpl. intros Hlen. lia.
  - destruct (Hsink d (or_introl eq_refl)) as [r Hd].
    assert (Hsink' : forall d', In d' l -> exists r', on_write fo d' = Returns r').
    { intros d' Hin. apply Hsink. right. exact Hin. }
    destruct xs as [|x xs].
    + destruct (writelines_cons fo d l r [] Hd) as (Hfeed & Hcalled & _).
      destruct (writelines_cons fo d l r [] Hd) as (_ & _ & Hres).
      destruct (Hres VSigintHappened) as [Hf Hc].
      split; [simpl; discriminate|]. intros _.
      split; [eexists; exact Hfeed|]. split; [exact Hcalled|].
      simpl app. rewrite Hf, Hc. split; reflexivity.
    + assert (Hx : is_SigintHappened x = false).
      { apply Hxs. left. reflexivity. }
      assert (Hxs' : forall y, In y xs -> is_SigintHappened y = false).
      { intros y Hin. apply Hxs. right. exact Hin. }
      assert (Hgo : bind (resumed x) (fun _ => writelines fo l) =
                    writelines fo l).
      { unfold resumed. rewrite Hx. reflexivity. }
      destruct (IH xs Hsink' Hxs') as [IHeq IHlt].
      split.
      * intros Hlen. simpl in Hlen. injection Hlen as Hlen.
        destruct (IHeq Hlen) as [Hf Hc].
        destruct (writelines_cons fo d l r (map Resumed xs) Hd)
          as (_ & _ & Hres).
        destruct (Hres x) as [Hf1 Hc1]. simpl map.
        rewrite Hf1, Hc1, Hgo, Hf, Hc. split; reflexivity.
      * intros Hlen. simpl in Hlen. apply PeanoNat.lt_S_n in Hlen.
        destruct (IHlt Hlen) as ([k Hf] & Hc & Hfi & Hci).
        destruct (writelines_cons fo d l r (map Resumed xs) Hd)
          as (_ & _ & Hres).
        destruct (Hres x) as [Hf1 Hc1].
        destruct (writelines_cons fo d l r
                    (map Resumed xs ++ [Resumed VSigintHappened]) Hd)
          as (_ & _ & Hres').
        destruct (Hres' x) as [Hf2 Hc2].
        simpl map. simpl length.
        change (firstn (S (S (length xs))) (d :: l))
          with (d :: firstn (S (length xs)) l).
        rewrite Hf1, Hc1, Hgo.
        split; [exists k; exact Hf|]. split; [rewrite Hc; reflexivity|].
        change ((Resumed x :: map Resumed xs) ++ [Resumed VSigintHappened])
          with (Resumed x :: (map Resumed xs ++ [Resumed VSigintHappened])).
        rewrite Hf2, Hc2, Hgo, Hfi, Hci. split; reflexivity.
Qed.

Lemma writelines_one_switch_per_line_witness :
  feed (writelines quiet_sink [VStr "a"; VStr "b"])
       (map Resumed [VNone; VInt 1]) = Ret VNone /\
  called (writelines quiet_sink [VStr "a"; VStr "b"])
         (map Resumed [VNone; VInt 1]) = [VStr "a"; VStr "b"].
Proof.
  apply (writelines_one_switch_per_line quiet_sink
           [VStr "a"; VStr "b"] [VNone; VInt 1]).
  - intros d _. exists VNone. reflexivity.
  - intros x [<-|[<-|[]]]; reflexivity.
  - reflexivity.
Defined.

(** ** A statement that writes *)

(** A suspended greenlet that has the lines [rest] left to write, resumed
    once for each of them and once more. *)
Lemma resume_writing : forall fo rest vs st g k h,
  code_greenlet (self st) = Some g ->
  gstate_of g = GSuspended k ->
  code_is_waiting (self st) = true ->
  sigint_happened (self st) = false ->
  orig_sigint_handler (self st) = Some h ->
  (forall x, is_SigintHappened x = false ->
             k x = _blocking_run_code (__init__ (writing_interp fo rest))) ->
  (forall d, In d rest -> exists r, on_write fo d = Returns r) ->
  (forall x, In x vs -> is_SigintHappened x = false) ->
  length vs = S (length rest) ->
  exists st',
    run_codes vs st =
      (repeat (Returns (VBool false)) (length rest) ++ [Returns (VStr "done")],
       st') /\
    unloaded st' /\
    orig_sigint_handler (self st') = None /\
    sigint_slot (proc st') = h /\
    trace (proc st') =
      trace (proc st) ++ flat_map (fun d => [Called d; RefreshRequest]) rest.
Proof.
  intros fo rest. induction rest as [|d rest IH];
    intros vs st g k h Hg Hk Hw Hf Ho Hrest Hsink Hvs Hlen.
  - destruct vs as [|v [|? ?]]; try discriminate.
    assert (Hv : is_SigintHappened v = false) by (apply Hvs; left; reflexivity).
    destruct st as [[i s cg w f o] [slot cur n tr]]. simpl in *. subst.
    destruct g as [id gs]. simpl in *. subst.
    unfold run_code, run_code_switch, mbind, get_self, assert_,
      upd_self, signal_signal, upd_proc, greenlet_switch. simpl.
    rewrite (Hrest v Hv). simpl.
    eexists. split; [reflexivity|]. simpl.
    unfold unloaded. simpl. rewrite app_nil_r. auto.
  - destruct vs as [|v vs]; [discriminate|].
    assert (Hv : is_SigintHappened v = false) by (apply Hvs; left; reflexivity).
    destruct (Hsink d (or_introl eq_refl)) as [r Hd].
    destruct st as [[i s cg w f o] [slot cur n tr]]. simpl in *. subst.
    destruct g as [id gs]. simpl in *. subst.
    unfold run_code, run_code_switch, mbind, get_self, assert_,
      upd_self, signal_signal, upd_proc, greenlet_switch. simpl.
    rewrite (Hrest v Hv). simpl. rewrite Hd. simpl.
    match goal with
    | |- context [run_codes vs ?S] =>
        destruct (IH vs S
                    (mk_greenlet id (GSuspended
                       (fun x =>
                          _blocking_run_code
                            (__init__
                               (fun _ =>
                                  bind (bind (resumed x)
                                          (fun _ => writelines fo rest))
                                       (fun _ => Ret (VBool false)))))))
                    _ h eq_refl eq_refl eq_refl eq_refl eq_refl)
          as (st' & Hrun & Hun & Ho' & Hslot & Htr)
    end.
    + intros x Hx. unfold resumed. rewrite Hx. reflexivity.
    + intros d' Hin. apply Hsink. right. exact Hin.
    + intros x Hin. apply Hvs. right. exact Hin.
    + simpl in Hlen. injection Hlen as Hlen. exact Hlen.
    + rewrite Hrun. exists st'. split; [reflexivity|].
      repeat split; auto.
      * destruct Hun as (? & ? & ?); assumption.
      * destruct Hun as (? & ? & ?); assumption.
      * destruct Hun as (? & ? & ?); assumption.
      * rewrite Htr. simpl. repeat rewrite <- app_assoc. reflexivity.
Qed.

(** X12: from a state the driver can reach with nothing loaded and no
    interrupt pending, a statement that writes the lines [l] through
    [writelines] to a sink that returns takes one call of [run_code] for
    each line, each returning [False], and one more that returns ['done'];
    the values the calls hand over are not [SigintHappened].  The trace gets
    every line followed by one call of the refresh callback, in order; at
    the end the runner is unloaded and the SIGINT slot is as it was. *)
Theorem one_step_per_line : forall fo l src v0 vs st,
  reachable st ->
  source (self st) = None ->
  sigint_happened (self st) = false ->
  interp (self st) = writing_interp fo l ->
  (forall d, In d l -> exists r, on_write fo d = Returns r) ->
  (forall x, In x vs -> is_SigintHappened x = false) ->
  length vs = length l ->
  exists st',
    run_codes (v0 :: vs) (snd (load_code src st)) =
      (repeat (Returns (VBool false)) (length l) ++ [Returns (VStr "done")],
       st') /\
    unloaded st' /\
    orig_sigint_handler (self st') = None /\
    sigint_slot (proc st') = sigint_slot (proc st) /\
    trace (proc st') =
      trace (proc st) ++ flat_map (fun d => [Called d; RefreshRequest]) l.
Proof.
  intros fo l src v0 vs st Hr Hsrc Hf Hi Hsink Hvs Hlen.
  pose proof (reachable_consistent st Hr) as [Ha Hb _ Hcur].
  specialize (Ha Hsrc). specialize (Hb Ha).
  destruct st as [[i s g w f o] [slot cur n tr]]. simpl in *. subst.
  destruct l as [|d l].
  - destruct vs; [|discriminate].
    unfold load_code, run_code, run_code_switch, mbind, get_self, assert_,
      upd_self, greenlet_greenlet, get_proc, upd_proc, signal_getsignal,
      signal_signal, ret, greenlet_switch, _blocking_run_code. simpl.
    eexists. split; [reflexivity|]. unfold unloaded. simpl.
    rewrite app_nil_r. auto.
  - destruct (Hsink d (or_introl eq_refl)) as [r Hd].
    cbn [run_codes].
    unfold load_code, run_code at 1, run_code_switch, mbind, get_self, assert_,
      upd_self, greenlet_greenlet, get_proc, upd_proc, signal_getsignal,
      signal_signal, ret, greenlet_switch, _blocking_run_code. simpl.
    rewrite Hd. simpl.
    match goal with
    | |- context [run_codes vs ?S] =>
        destruct (resume_writing fo l vs S
                    (mk_greenlet n (GSuspended
                       (fun x =>
                          _blocking_run_code
                            (__init__
                               (fun _ =>
                                  bind (bind (resumed x)
                                          (fun _ => writelines fo l))
                                       (fun _ => Ret (VBool false)))))))
                    _ slot eq_refl eq_refl eq_refl eq_refl eq_refl)
          as (st' & Hrun & Hun & Ho' & Hslot & Htr)
    end.
    + intros x Hx. unfold resumed. rewrite Hx. reflexivity.
    + intros d' Hin. apply Hsink. right. exact Hin.
    + exact Hvs.
    + simpl in Hlen. exact Hlen.
    + rewrite Hrun. exists st'. split; [reflexivity|].
      split; [exact Hun|]. split; [exact Ho'|]. split; [exact Hslot|].
      rewrite Htr. simpl. repeat rewrite <- app_assoc. reflexivity.
Qed.

Lemma one_step_per_line_witness :
  reachable (start (writing_interp quiet_sink [VStr "a"; VStr "b"])) /\
  fst (run_codes [VNone; VInt 1; VInt 2]
         (snd (load_code "print"
                 (start (writing_interp quiet_sink [VStr "a"; VStr "b"]))))) =
    [Returns (VBool false); Returns (VBool false); Returns (VStr "done")].
Proof.
  split; [apply reachable_start|].
  destruct (one_step_per_line quiet_sink [VStr "a"; VStr "b"] "print" VNone
              [VInt 1; VInt 2]
              (start (writing_interp quiet_sink [VStr "a"; VStr "b"]))
              (reachable_start _) eq_refl eq_refl eq_refl)
    as (st' & Hrun & _).
  - intros d _. exists VNone. reflexivity.
  - intros x [<-|[<-|[]]]; reflexivity.
  - reflexivity.
  - rewrite Hrun. reflexivity.
Defined.

(** ** After a statement, and after one that exits *)

(** X13: in every state the driver can reach, what [run_code] returns tells
    whether the next statement may be loaded: after a true value
    [load_code] goes through and records its source; after [False] it fails
    its assertion and changes nothing. *)
Theorem result_tells_whether_to_load : forall for_code st r st' src,
  reachable st ->
  run_code for_code st = (Returns r, st') ->
  (truthy r = true ->
   exists st'', load_code src st' = (Returns tt, st'') /\
                source (self st'') = Some src /\
                code_greenlet (self st'') = None) /\
  (truthy r = false ->
   load_code src st' = (Raises AssertionError, st')).
Proof.
  intros for_code st r st' src Hr H.
  pose proof (run_code_cases _ _ _ _ (reachable_consistent st Hr)
                (reachable_settled st Hr) H) as Hcase.
  inversion Hcase; subst.
  - split; [discriminate|]. intros _.
    match goal with
    | Hk : kept _ _ |- _ => destruct Hk as (K1 & K2 & _)
    end.
    unfold load_code, mbind, get_self, assert_.
    destruct (source (self st')) eqn:E; [reflexivity|congruence].
  - match goal with
    | Hq : _ \/ _, Hu : unloaded _ |- _ =>
        destruct Hu as (Hs & _); split;
          [|destruct Hq as [->| ->]; discriminate]
    end.
    intros _.
    unfold load_code, mbind, get_self, assert_, upd_self. rewrite Hs. simpl.
    eexists. split; [reflexivity|]. split; reflexivity.
Qed.

Lemma result_tells_whether_to_load_witness :
  reachable (loaded printing_interp) /\
  run_code VNone (loaded printing_interp) =
    (Returns (VBool false), stepped printing_interp) /\
  load_code "2 + 2" (stepped printing_interp) =
    (Raises AssertionError, stepped printing_interp).
Proof.
  assert (Hr : reachable (loaded printing_interp)).
  { apply reach_apply, reachable_start. }
  split; [exact Hr|]. split; [reflexivity|].
  apply (proj2 (result_tells_whether_to_load VNone (loaded printing_interp)
                  (VBool false) (stepped printing_interp) "2 + 2"
                  Hr eq_refl)).
  reflexivity.
Defined.

(** X14: in every state the driver can reach, after a call of [run_code]
    that raised [SystemExitFromCodeThread] the runner's handler is still in
    the SIGINT slot with no greenlet in place: a SIGINT that hits the
    driver then raises nothing and only sets [sigint_happened]. *)
Theorem sigint_after_exit_is_swallowed : forall for_code st st',
  reachable st ->
  run_code for_code st = (Raises SystemExitFromCodeThread, st') ->
  code_greenlet (self st') = None /\
  sigint_slot (proc st') = RunnerHandler /\
  deliver_sigint st' =
    (Returns tt, mk_State (set_sigint_happened true (self st')) (proc st')).
Proof.
  intros for_code st st' Hr H.
  pose proof (run_code_cases _ _ _ _ (reachable_consistent st Hr)
                (reachable_settled st Hr) H) as Hcase.
  inversion Hcase; subst; try discriminate.
  match goal with
  | Hu : unloaded _, Hs : sigint_slot _ = RunnerHandler |- _ =>
      destruct Hu as (_ & Hg & _);
      split; [exact Hg|]; split; [exact Hs|];
      unfold deliver_sigint, mbind, get_proc; simpl; rewrite Hs;
      unfold sigint_handler, mbind, get_self, get_proc; simpl; rewrite Hg;
      destruct (current (proc st')); reflexivity
  end.
Qed.

Lemma sigint_after_exit_is_swallowed_witness :
  reachable (loaded exiting_interp) /\
  run_code VNone (loaded exiting_interp) =
    (Raises SystemExitFromCodeThread, stepped exiting_interp) /\
  sigint_happened (self (apply Signal (stepped exiting_interp))) = true.
Proof.
  assert (Hr : reachable (loaded exiting_interp)).
  { apply reach_apply, reachable_start. }
  split; [exact Hr|]. split; [reflexivity|].
  destruct (sigint_after_exit_is_swallowed VNone (loaded exiting_interp)
              (stepped exiting_interp) Hr eq_refl) as (_ & _ & Hd).
  change (apply Signal (stepped exiting_interp))
    with (snd (deliver_sigint (stepped exiting_interp))).
  rewrite Hd. reflexivity.
Defined.

(** ** A statement that reads *)

(** X15: from a state the driver can reach with nothing loaded and no
    interrupt pending, a statement that calls [wait_and_get_value] and goes
    on with [body]: the first [run_code] returns [False] and the refresh
    callback is not called; the value of the next [run_code] is what [body]
    gets, so when [body] just returns on it the call returns ['unfinished']
    or ['done'] by its result; and when a SIGINT hit the driver in between,
    the next [run_code] raises [KeyboardInterrupt] whatever value it is
    given, [body] is not run, and the runner keeps its source and its
    greenlet. *)
Theorem input_reaches_the_code : forall body src v0 v st,
  reachable st ->
  source (self st) = None ->
  sigint_happened (self st) = false ->
  interp (self st) = reading_interp body ->
  run_code v0 (snd (load_code src st)) =
    (Returns (VBool false), apply (Run v0) (apply (Load src) st)) /\
  trace (proc (apply (Run v0) (apply (Load src) st))) = trace (proc st) /\
  (forall unfinished,
     is_SigintHappened v = false -> body v = Ret unfinished ->
     fst (run_code v (apply (Run v0) (apply (Load src) st))) =
       Returns (VStr (if truthy unfinished then "unfinished" else "done"))) /\
  fst (run_code v (apply Signal (apply (Run v0) (apply (Load src) st)))) =
    Raises KeyboardInterrupt /\
  stuck (apply (Run v)
           (apply Signal (apply (Run v0) (apply (Load src) st)))) /\
  trace (proc (apply (Run v)
                 (apply Signal (apply (Run v0) (apply (Load src) st))))) =
    trace (proc st).
Proof.
  intros body src v0 v st Hr Hsrc Hf Hi.
  pose proof (reachable_consistent st Hr) as [Ha Hb _ Hcur].
  specialize (Ha Hsrc). specialize (Hb Ha).
  destruct st as [[i s g w f o] [slot cur n tr]]. simpl in *. subst.
  split; [reflexivity|]. split; [reflexivity|]. split; [|split; [|split]].
  - intros u Hv Hbody.
    unfold load_code, run_code, run_code_switch, mbind, get_self, assert_,
      upd_self, greenlet_greenlet, get_proc, upd_proc, signal_getsignal,
      signal_signal, ret, greenlet_switch, _blocking_run_code. simpl.
    unfold resumed. rewrite Hv. simpl. rewrite Hbody. simpl.
    destruct (truthy u); reflexivity.
  - reflexivity.
  - unfold stuck. simpl. repeat split; discriminate.
  - reflexivity.
Qed.

Lemma input_reaches_the_code_witness :
  reachable (start (reading_interp (fun x => Ret x))) /\
  fst (run_code (VStr "typed")
         (apply (Run VNone)
            (apply (Load "raw_input()")
               (start (reading_interp (fun x => Ret x)))))) =
    Returns (VStr "unfinished").
Proof.
  split; [apply reachable_start|].
  apply (proj1 (proj2 (proj2
           (input_reaches_the_code (fun x => Ret x) "raw_input()" VNone
              (VStr "typed") (start (reading_interp (fun x => Ret x)))
              (reachable_start _) eq_refl eq_refl eq_refl)))
           (VStr "typed")); reflexivity.
Defined.
